(** * Bikeshare statistics (bikeshare_2.py): a shallow embedding

    The script reads a city's trip table with pandas, derives three columns
    from the start timestamp, filters by month and weekday, and prints
    aggregate statistics.  The embedding keeps the Python object store (a
    DataFrame assigned to is mutated in place, a boolean selection allocates a
    new one), standard input, standard output and the exceptions explicit. *)

From Stdlib Require Import ZArith Lia Ascii String List.
From Stdlib Require Import Floats.SpecFloat.
From stdpp Require Import gmap strings list sorting.

Local Open Scope string_scope.
Local Open Scope list_scope.
Local Open Scope stdpp_scope.
Local Open Scope Z_scope.

(** ** Python values and exceptions *)

Inductive exn : Type :=
| KeyError | ValueError | TypeError | OverflowError
| FileNotFoundError | EOFError.

(** How a computation ends: with a value, with an exception, or [Stuck]
    when it leaves the fragment of pandas modelled here (a text or float
    column where integers are expected) or meets a dangling reference. *)
Inductive Res (A : Type) : Type :=
| Ok (a : A)
| Raise (e : exn)
| Stuck.
Arguments Ok {A} a.
Arguments Raise {A} e.
Arguments Stuck {A}.

(** A table cell: a missing value, an integer or a text. *)
Inductive Cell : Type :=
| NaN
| Int (z : Z)
| Str (s : string).

#[global] Instance Cell_eq_dec : EqDecision Cell.
Proof. solve_decision. Defined.

Definition notna (c : Cell) : bool :=
  match c with NaN => false | _ => true end.

(** ** The order pandas sorts mode values and group keys by

    Numbers come before texts; numbers by value, texts by code point. *)
Module CellOrder.

Definition cell_leb (a b : Cell) : bool :=
  match a, b with
  | NaN, _ => true
  | _, NaN => false
  | Int x, Int y => x <=? y
  | Int _, Str _ => true
  | Str _, Int _ => false
  | Str s, Str t => String.leb s t
  end.

Definition cell_le (a b : Cell) : Prop := cell_leb a b = true.

Definition pair_leb (p q : Cell * Cell) : bool :=
  if decide (p.1 = q.1) then cell_leb p.2 q.2 else cell_leb p.1 q.1.

Definition pair_le (p q : Cell * Cell) : Prop := pair_leb p q = true.

#[global] Instance cell_le_dec a b : Decision (cell_le a b).
Proof. unfold cell_le. apply _. Defined.

#[global] Instance pair_le_dec p q : Decision (pair_le p q).
Proof. unfold pair_le. apply _. Defined.

End CellOrder.
Export CellOrder.

(** ** numpy scalars

    [int64] sums wrap around; float64 values follow IEEE 754 binary64, taken
    from the Standard Library's executable specification. *)
Module Int64.

Definition wrap (z : Z) : Z := (z + 2 ^ 63) mod 2 ^ 64 - 2 ^ 63.

Definition in_range (z : Z) : bool := (- 2 ^ 63 <=? z) && (z <? 2 ^ 63).

(** [Series.sum] over an int64 column: the accumulator is an int64. *)
Definition sum (xs : list Z) : Z := fold_left (fun acc x => wrap (acc + x)) xs 0.

End Int64.

Module Float64.

Definition prec : Z := 53.
Definition emax : Z := 1024.

Definition of_Z (z : Z) : spec_float := binary_normalize prec emax z 0 false.
Definition add : spec_float -> spec_float -> spec_float := SFadd prec emax.
Definition sub : spec_float -> spec_float -> spec_float := SFsub prec emax.
Definition div : spec_float -> spec_float -> spec_float := SFdiv prec emax.
Definition half : spec_float := binary_normalize prec emax 1 (-1) false.

Definition sign (x : spec_float) : bool :=
  match x with
  | S754_zero s | S754_infinity s | S754_finite s _ _ => s
  | S754_nan => false
  end.

Definition is_zero (x : spec_float) : bool :=
  match x with S754_zero _ => true | _ => false end.

Definition signed (s : bool) (m : positive) : Z := if s then Z.neg m else Z.pos m.

(** C's [fmod]: the exact remainder of truncated division, with the sign
    of the dividend. *)
Definition fmod (a b : spec_float) : spec_float :=
  match a, b with
  | S754_nan, _ | _, S754_nan => S754_nan
  | S754_infinity _, _ | _, S754_zero _ => S754_nan
  | _, S754_infinity _ => a
  | S754_zero _, _ => a
  | S754_finite sa ma ea, S754_finite _ mb eb =>
      let e := Z.min ea eb in
      let A := Z.pos ma * 2 ^ (ea - e) in
      let B := Z.pos mb * 2 ^ (eb - e) in
      let R := A mod B in
      binary_normalize prec emax (if sa then - R else R) e sa
  end.

Definition floor (x : spec_float) : spec_float :=
  match x with
  | S754_finite s m e =>
      if 0 <=? e then x
      else
        let q := signed s m / 2 ^ (- e) in
        binary_normalize prec emax q 0 s
  | _ => x
  end.

(** numpy's [npy_divmod] for doubles, for a divisor other than zero:
    the pair (floor quotient, remainder with the divisor's sign). *)
Definition divmod (a b : spec_float) : spec_float * spec_float :=
  let mod0 := fmod a b in
  let div0 := div (sub a mod0) b in
  let '(md, dv) :=
    if is_zero mod0 then (S754_zero (sign b), div0)
    else if negb (Bool.eqb (SFltb b (S754_zero false)) (SFltb mod0 (S754_zero false)))
         then (add mod0 b, sub div0 (of_Z 1))
         else (mod0, div0) in
  let floordiv :=
    if is_zero dv then S754_zero (sign (div a b))
    else
      let f := floor dv in
      if SFltb half (sub dv f) then add f (of_Z 1) else f in
  (floordiv, md).

Definition floordiv (a b : spec_float) : spec_float := (divmod a b).1.
Definition remainder (a b : spec_float) : spec_float := (divmod a b).2.

(** Python's [int(x)]: truncation toward zero. *)
Definition to_int (x : spec_float) : Res Z :=
  match x with
  | S754_nan => Raise ValueError
  | S754_infinity _ => Raise OverflowError
  | S754_zero _ => Ok 0
  | S754_finite s m e =>
      Ok (if 0 <=? e then signed s m * 2 ^ e else Z.quot (signed s m) (2 ^ (- e)))
  end.

(** [Series.mean] over an int64 column: the values are added as doubles
    and the sum is divided by the count; an empty column gives NaN.  The
    additions are taken left to right; wherever every partial sum is an
    integer below 2^53 in magnitude the order of additions is immaterial. *)
Definition mean (xs : list Z) : spec_float :=
  match xs with
  | [] => S754_nan
  | _ => div (fold_left (fun acc x => add acc (of_Z x)) xs (S754_zero false))
             (of_Z (Z.of_nat (length xs)))
  end.

End Float64.

(** ** pandas tables

    A DataFrame is kept row-major: the column names in order and the rows,
    each with its index label.  A row holds its cells by column name; a
    name without an entry reads as a missing value. *)
Module Pandas.

Record Row : Type := { label : nat; fields : gmap string Cell }.

Record DataFrame : Type := { columns : list string; rows : list Row }.

(** What a CSV file holds: the header line and the data lines. *)
Record CsvFile : Type := { header : list string; records : list (gmap string Cell) }.

#[global] Instance Row_eq_dec : EqDecision Row.
Proof. solve_decision. Defined.

#[global] Instance DataFrame_eq_dec : EqDecision DataFrame.
Proof. solve_decision. Defined.

Definition cell (c : string) (r : Row) : Cell := default NaN (fields r !! c).

Definition set_cell (c : string) (v : Cell) (r : Row) : Row :=
  {| label := label r; fields := <[c:=v]> (fields r) |}.

(** [pd.read_csv]'s result: the rows are labelled 0, 1, 2, ... *)
Definition frame_of_csv (f : CsvFile) : DataFrame :=
  {| columns := header f; rows := imap (fun i fs => {| label := i; fields := fs |}) (records f) |}.

(** [df[c]] *)
Definition column (c : string) (df : DataFrame) : Res (list Cell) :=
  if decide (c ∈ columns df) then Ok (cell c <$> rows df) else Raise KeyError.

(** [df[c] = s]: the column is replaced, or appended when new. *)
Definition assign (c : string) (s : list Cell) (df : DataFrame) : Res DataFrame :=
  if decide (length s = length (rows df)) then
    Ok {| columns := if decide (c ∈ columns df) then columns df else columns df ++ [c];
          rows := zip_with (set_cell c) s (rows df) |}
  else Raise ValueError.

(** [s == v] *)
Definition eq_mask (s : list Cell) (v : Cell) : list bool :=
  (fun c => bool_decide (c = v)) <$> s.

(** [df[mask]]: the rows whose mask entry is True, in order. *)
Definition select (mask : list bool) (df : DataFrame) : Res DataFrame :=
  if decide (length mask = length (rows df)) then
    Ok {| columns := columns df;
          rows := fst <$> filter (fun p => p.2 = true) (zip (rows df) mask) |}
  else Raise ValueError.

Section Counting.
Context {K : Type} `{EqDecision K}.

Definition count (v : K) (s : list K) : nat := length (filter (fun x => x = v) s).

(** The distinct values, in order of first appearance. *)
Fixpoint unique (s : list K) : list K :=
  match s with
  | [] => []
  | x :: s' => x :: filter (fun y => y ≠ x) (unique s')
  end.

Definition max_count (s : list K) : nat := max_list ((fun v => count v s) <$> s).

(** numpy's [argmax] loop behind [idxmax]: the first entry holding the
    largest count. *)
Fixpoint argmax_from (best : K * nat) (l : list (K * nat)) : K :=
  match l with
  | [] => best.1
  | p :: l' => if (best.2 <? p.2)%nat then argmax_from p l' else argmax_from best l'
  end.

Definition idxmax (l : list (K * nat)) : Res K :=
  match l with
  | [] => Raise ValueError
  | p :: l' => Ok (argmax_from p l')
  end.

End Counting.

Definition dropna (s : list Cell) : list Cell := filter (fun c => notna c = true) s.

(** The values of highest frequency, as the hash table yields them. *)
Definition htable_mode (s : list Cell) : list Cell :=
  let vs := dropna s in
  filter (fun v => count v vs = max_count vs) (unique vs).

(** [s.mode()]: missing values dropped, the modes sorted ascending. *)
Definition mode (s : list Cell) : list Cell := merge_sort cell_le (htable_mode s).

(** [s[0]] on a freshly indexed Series *)
Definition item0 (s : list Cell) : Res Cell :=
  match s with
  | [] => Raise KeyError
  | v :: _ => Ok v
  end.

Definition more_frequent (a b : Cell * nat) : Prop := (b.2 <= a.2)%nat.

#[global] Instance more_frequent_dec a b : Decision (more_frequent a b).
Proof. unfold more_frequent. apply _. Defined.

(** [s.value_counts()]: counts of the present values, largest first. *)
Definition value_counts (s : list Cell) : list (Cell * nat) :=
  let vs := dropna s in
  merge_sort more_frequent ((fun v => (v, count v vs)) <$> unique vs).

(** [df.groupby([a, b]).size()]: rows with a missing key are left out,
    the groups come sorted by key. *)
Definition groupby_size (keys : list (Cell * Cell)) : list ((Cell * Cell) * nat) :=
  let ks := filter (fun k => notna k.1 = true ∧ notna k.2 = true) keys in
  (fun k => (k, count k ks)) <$> merge_sort pair_le (unique ks).

(** The numbers of a numeric column, missing values skipped; [None] when
    the column holds text. *)
Fixpoint numbers (s : list Cell) : option (list Z) :=
  match s with
  | [] => Some []
  | NaN :: s' => numbers s'
  | Int z :: s' => cons z <$> numbers s'
  | Str _ :: _ => None
  end.

(** The values of an int64 column; [None] for any other column. *)
Fixpoint int64_values (s : list Cell) : option (list Z) :=
  match s with
  | [] => Some []
  | Int z :: s' => if Int64.in_range z then cons z <$> int64_values s' else None
  | _ => None
  end.

Definition min_of (zs : list Z) : option Z :=
  match zs with [] => None | z :: zs' => Some (foldr Z.min z zs') end.

Definition max_of (zs : list Z) : option Z :=
  match zs with [] => None | z :: zs' => Some (foldr Z.max z zs') end.

End Pandas.
Export Pandas.

(** ** Timestamps

    A timestamp is a count of nanoseconds since 1970-01-01T00:00; the
    calendar fields come from the proleptic Gregorian calendar. *)
Module Calendar.

Definition ns_per_hour : Z := 3600 * 1000000000.
Definition ns_per_day : Z := 24 * ns_per_hour.

Definition days (ns : Z) : Z := ns / ns_per_day.

Definition hour (ns : Z) : Z := (ns / ns_per_hour) mod 24.

(** 0 is Monday; day 0 was a Thursday. *)
Definition weekday (ns : Z) : Z := (days ns + 3) mod 7.

(** Month number 1..12 of a day count. *)
Definition month (ns : Z) : Z :=
  let z := days ns + 719468 in
  let era := z / 146097 in
  let doe := z - era * 146097 in
  let yoe := (doe - doe / 1460 + doe / 36524 - doe / 146096) / 365 in
  let doy := doe - (365 * yoe + yoe / 4 - yoe / 100) in
  let mp := (5 * doy + 2) / 153 in
  if mp <? 10 then mp + 3 else mp - 9.

Definition month_names : list string :=
  ["January"; "February"; "March"; "April"; "May"; "June"; "July";
   "August"; "September"; "October"; "November"; "December"]%string.

Definition day_names : list string :=
  ["Monday"; "Tuesday"; "Wednesday"; "Thursday"; "Friday"; "Saturday";
   "Sunday"]%string.

Definition month_name (ns : Z) : string :=
  nth (Z.to_nat (month ns - 1)) month_names ""%string.

Definition day_name (ns : Z) : string :=
  nth (Z.to_nat (weekday ns)) day_names ""%string.

End Calendar.


(** ** The interpreter state

    The object store holds the DataFrames; a reference is a position in
    it.  [stdin] is the lines still to be typed, [stdout] what has been
    printed, [ticks] how many times the clock has been read. *)
Module Py.

Inductive Event : Type :=
| Text (s : string)
| Prompt (s : string)
| Value (caption : string) (v : Cell)
| Combo (caption : string) (k : Cell * Cell)
| Table (caption : string) (t : list (Cell * nat))
| Span (caption : string) (d h m s : Z)
| Elapsed (t : Z).

#[global] Instance Event_eq_dec : EqDecision Event.
Proof. solve_decision. Defined.

Record World : Type :=
  { heap : list DataFrame; stdin : list string; stdout : list Event; ticks : nat }.

Definition M (A : Type) : Type := World -> Res A * World.

Definition ret {A} (a : A) : M A := fun w => (Ok a, w).

Definition bind {A B} (m : M A) (k : A -> M B) : M B :=
  fun w =>
    match m w with
    | (Ok a, w') => k a w'
    | (Raise e, w') => (Raise e, w')
    | (Stuck, w') => (Stuck, w')
    end.

Definition lift {A} (r : Res A) : M A := fun w => (r, w).

Definition of_option {A} (o : option A) : M A :=
  match o with Some a => ret a | None => lift Stuck end.

Definition print (e : Event) : M unit :=
  fun w => (Ok tt, {| heap := heap w; stdin := stdin w;
                      stdout := stdout w ++ [e]; ticks := ticks w |}).

(** [input(prompt)]: the prompt is written, one line is read; end of
    input raises [EOFError]. *)
Definition input (prompt : string) : M string :=
  fun w =>
    let out := stdout w ++ [Prompt prompt] in
    match stdin w with
    | [] => (Raise EOFError,
             {| heap := heap w; stdin := []; stdout := out; ticks := ticks w |})
    | l :: ls => (Ok l, {| heap := heap w; stdin := ls; stdout := out; ticks := ticks w |})
    end.

Definition alloc (df : DataFrame) : M nat :=
  fun w => (Ok (length (heap w)),
            {| heap := heap w ++ [df]; stdin := stdin w;
               stdout := stdout w; ticks := ticks w |}).

Definition deref (l : nat) : M DataFrame := fun w => of_option (heap w !! l) w.

Definition store (l : nat) (df : DataFrame) : M unit :=
  fun w => (Ok tt, {| heap := <[l:=df]> (heap w); stdin := stdin w;
                      stdout := stdout w; ticks := ticks w |}).

End Py.
Export Py.

Declare Scope py_scope.
Delimit Scope py_scope with py.
Notation "x <- m ;; k" := (bind m (fun x => k))
  (at level 100, m at next level, right associativity) : py_scope.
Notation "m ;;; k" := (bind m (fun _ => k))
  (at level 100, right associativity) : py_scope.

(** ASCII lower-casing, one instance of [str.lower]. *)
Definition ascii_lower (a : ascii) : ascii :=
  let n := nat_of_ascii a in
  if ((65 <=? n) && (n <=? 90))%nat then ascii_of_nat (n + 32) else a.

Fixpoint lower_ascii (s : string) : string :=
  match s with
  | EmptyString => EmptyString
  | String a s' => String (ascii_lower a) (lower_ascii s')
  end.

(** ** The program *)
Section Bikeshare.

(** [str.lower] *)
Variable lower : string -> string.
(** [pd.to_datetime] on a column: a timestamp or NaT ([None]) per cell,
    or an exception. *)
Variable to_datetime : list Cell -> Res (list (option Z)).
(** The files [pd.read_csv] can open. *)
Variable files : string -> option CsvFile.
(** The successive readings of [time.time()]. *)
Variable clock : nat -> Z.

Local Open Scope py_scope.

Definition CITY_DATA : list (string * string) :=
  [("chicago", "chicago.csv");
   ("new york city", "new_york_city.csv");
   ("washington", "washington.csv")]%string.

Definition months : list string :=
  ["all"; "january"; "february"; "march"; "april"; "may"; "june"]%string.

Definition days : list string :=
  ["all"; "monday"; "tuesday"; "wednesday"; "thursday"; "friday"; "saturday";
   "sunday"]%string.

Definition rule (n : nat) : string := String.concat "" (replicate n "-"%string).

Definition time_time : M Z :=
  fun w => (Ok (clock (ticks w)),
            {| heap := heap w; stdin := stdin w; stdout := stdout w;
               ticks := S (ticks w) |}).

Definition read_csv (path : string) : M nat :=
  match files path with
  | Some f => alloc (frame_of_csv f)
  | None => lift (Raise FileNotFoundError)
  end.

(** [CITY_DATA[city]] *)
Definition city_file (city : string) : M string :=
  match list_find (fun p => p.1 = city) CITY_DATA with
  | Some (_, p) => ret p.2
  | None => lift (Raise KeyError)
  end.

Definition getcol (df : nat) (c : string) : M (list Cell) :=
  d <- deref df ;; lift (column c d).

Definition setcol (df : nat) (c : string) (s : list Cell) : M unit :=
  d <- deref df ;; d' <- lift (assign c s d) ;; store df d'.

Definition getrows (df : nat) (mask : list bool) : M nat :=
  d <- deref df ;; d' <- lift (select mask d) ;; alloc d'.

(** The loop [while v not in valid: v = input(msg).lower()], unrolled
    along the lines still to be read. *)
Fixpoint while_not_in (valid : list string) (msg : string) (ins : list string)
    (v : string) : M string :=
  if decide (v ∈ valid) then ret v
  else
    match ins with
    | [] => _ <- input msg ;; lift (Raise EOFError)
    | _ :: ins' => l <- input msg ;; while_not_in valid msg ins' (lower l)
    end.

Definition ask (first again : string) (valid : list string) : M string :=
  l <- input first ;;
  fun w => while_not_in valid again (stdin w) (lower l) w.

Definition get_filters : M (string * string * string) :=
  print (Text "Hello! Let's explore some US bikeshare data!") ;;;
  city <- ask "Enter city name (chicago, new york city, washington): "
              "Invalid city: type one of (chicago, new york city, washington)"
              (fst <$> CITY_DATA) ;;
  month <- ask "Enter month name (all, january, february, ... , june): "
               "Invalid month: type one of (all, january, february, ... , june)"
               months ;;
  day <- ask "Enter day of week (all, monday, tuesday, ... , sunday): "
             "Invalid day: type one of (all, monday, tuesday, ... , sunday)"
             days ;;
  print (Text (rule 40)) ;;;
  ret (city, month, day).

Definition dt_month_name_lower (ts : list (option Z)) : list Cell :=
  (fun t => match t with
            | Some ns => Str (lower (Calendar.month_name ns))
            | None => NaN
            end) <$> ts.

Definition dt_day_name_lower (ts : list (option Z)) : list Cell :=
  (fun t => match t with
            | Some ns => Str (lower (Calendar.day_name ns))
            | None => NaN
            end) <$> ts.

Definition dt_hour (ts : list (option Z)) : list Cell :=
  (fun t => match t with
            | Some ns => Int (Calendar.hour ns)
            | None => NaN
            end) <$> ts.

(** Lines 61 to 66 of [load_data]: the table is read and the three
    derived columns are assigned to it, in place. *)
Definition read_and_derive (city : string) : M nat :=
  path <- city_file city ;;
  df <- read_csv path ;;
  raw <- getcol df "Start Time" ;;
  start_time <- lift (to_datetime raw) ;;
  setcol df "month" (dt_month_name_lower start_time) ;;;
  setcol df "day_of_week" (dt_day_name_lower start_time) ;;;
  setcol df "hour" (dt_hour start_time) ;;;
  ret df.

(** Lines 68 to 74 of [load_data]: each selection rebinds [df] to a new
    table. *)
Definition apply_filters (df : nat) (month day : string) : M nat :=
  df <- (if decide (month ≠ "all"%string)
         then m <- getcol df "month" ;; getrows df (eq_mask m (Str month))
         else ret df) ;;
  df <- (if decide (day ≠ "all"%string)
         then d <- getcol df "day_of_week" ;; getrows df (eq_mask d (Str day))
         else ret df) ;;
  ret df.

Definition load_data (city month day : string) : M nat :=
  df <- read_and_derive city ;;
  apply_filters df month day.

(** [s.mode()[0]] *)
Definition mode0 (df : nat) (c : string) : M Cell :=
  s <- getcol df c ;; lift (item0 (mode s)).

Definition took (start_time : Z) : M unit :=
  t <- time_time ;; print (Elapsed (t - start_time)).

Definition time_stats (df : nat) : M unit :=
  print (Text "\nCalculating Most Frequent Times of Travel...\n") ;;;
  start_time <- time_time ;;
  m <- mode0 df "month" ;;
  print (Value "Most common month: " m) ;;;
  d <- mode0 df "day_of_week" ;;
  print (Value "Most common day: " d) ;;;
  h <- mode0 df "hour" ;;
  print (Value "Most common hour: " h) ;;;
  took start_time ;;;
  print (Text (rule 40)).

Definition station_stats (df : nat) : M unit :=
  print (Text "\nCalculating Most Popular Stations and Trip...\n") ;;;
  start_time <- time_time ;;
  s <- mode0 df "Start Station" ;;
  print (Value "Most common start station:" s) ;;;
  e <- mode0 df "End Station" ;;
  print (Value "Most common end station:" e) ;;;
  starts <- getcol df "Start Station" ;;
  ends <- getcol df "End Station" ;;
  combo <- lift (idxmax (groupby_size (zip starts ends))) ;;
  print (Combo "Most common start/end combination:" combo) ;;;
  took start_time ;;;
  print (Text (rule 40)).

(** The four figures of a duration given in whole seconds. *)
Definition breakdown (T : Z) : Z * Z * Z * Z :=
  (T / 86400, (T mod 86400) / 3600, (T mod 3600) / 60, T mod 60).

Definition trip_duration_stats (df : nat) : M unit :=
  print (Text "\nCalculating Trip Duration...\n") ;;;
  start_time <- time_time ;;
  col <- getcol df "Trip Duration" ;;
  xs <- of_option (int64_values col) ;;
  let '(d, h, m, s) := breakdown (Int64.sum xs) in
  print (Span "Total" d h m s) ;;;
  col <- getcol df "Trip Duration" ;;
  xs <- of_option (int64_values col) ;;
  let mean := Float64.mean xs in
  let k := Float64.of_Z in
  d <- lift (Float64.to_int (Float64.floordiv mean (k 86400))) ;;
  h <- lift (Float64.to_int
               (Float64.floordiv (Float64.remainder mean (k 86400)) (k 3600))) ;;
  m <- lift (Float64.to_int
               (Float64.floordiv (Float64.remainder mean (k 3600)) (k 60))) ;;
  s <- lift (Float64.to_int (Float64.remainder mean (k 60))) ;;
  print (Span "Mean" d h m s) ;;;
  took start_time ;;;
  print (Text (rule 40)).

(** [int(x)] of a column minimum or maximum; of NaN it raises. *)
Definition int_of (o : option Z) : M Z :=
  match o with Some z => ret z | None => lift (Raise ValueError) end.

Definition int_of_cell (c : Cell) : M Z :=
  match c with
  | Int z => ret z
  | NaN => lift (Raise ValueError)
  | Str _ => lift Stuck
  end.

(** Lines 169 to 174 of [user_stats]. *)
Definition gender_section (df : nat) : M unit :=
  d <- deref df ;;
  if decide ("Gender"%string ∈ columns d) then
    gender <- getcol df "Gender" ;;
    print (Table "Gender:" (value_counts gender)) ;;;
    print (Text (rule 40))
  else print (Text "Gender data not available").

(** Lines 176 to 187 of [user_stats]. *)
Definition birth_year_section (df : nat) : M unit :=
  d <- deref df ;;
  if decide ("Birth Year"%string ∈ columns d) then
    by1 <- getcol df "Birth Year" ;;
    n1 <- of_option (numbers by1) ;;
    earliest <- int_of (min_of n1) ;;
    by2 <- getcol df "Birth Year" ;;
    n2 <- of_option (numbers by2) ;;
    recent <- int_of (max_of n2) ;;
    c <- mode0 df "Birth Year" ;;
    common <- int_of_cell c ;;
    print (Text "Birth year stats") ;;;
    print (Text (rule 20)) ;;;
    print (Value "Earliest: " (Int earliest)) ;;;
    print (Value "Most recent: " (Int recent)) ;;;
    print (Value "Most common: " (Int common))
  else print (Text "Birth year data not available").

Definition user_stats (df : nat) : M unit :=
  print (Text "\nCalculating User Stats...\n") ;;;
  start_time <- time_time ;;
  user_types <- getcol df "User Type" ;;
  print (Table "User types:" (value_counts user_types)) ;;;
  print (Text (rule 40)) ;;;
  gender_section df ;;;
  birth_year_section df ;;;
  print (Text (rule 40)) ;;;
  took start_time ;;;
  print (Text (rule 40)).

End Bikeshare.

(** ** The session: raw rows and the main loop

    [display_raw_data] prints slices of the table itself, so the screen of
    a session holds, besides the events above, the rows shown.  A session
    step that runs one of the functions above moves what that function
    printed onto the screen. *)
Module Console.

Inductive Out : Type :=
| Std (e : Event)
| Rows (rs : list Row).

#[global] Instance Out_eq_dec : EqDecision Out.
Proof. solve_decision. Defined.

Record Session : Type := { py : World; screen : list Out }.

Definition Act (A : Type) : Type := Session -> Res A * Session.

Definition sret {A} (a : A) : Act A := fun s => (Ok a, s).

Definition sbind {A B} (m : Act A) (k : A -> Act B) : Act B :=
  fun s =>
    match m s with
    | (Ok a, s') => k a s'
    | (Raise e, s') => (Raise e, s')
    | (Stuck, s') => (Stuck, s')
    end.

(** One of the computations above, run inside the session. *)
Definition run {A} (m : M A) : Act A :=
  fun s =>
    (fst (m (py s)),
     {| py := snd (m (py s));
        screen := screen s ++ (Std <$> drop (length (stdout (py s)))
                                         (stdout (snd (m (py s))))) |}).

(** [print(df.iloc[a:b])] *)
Definition print_rows (rs : list Row) : Act unit :=
  fun s => (Ok tt, {| py := py s; screen := screen s ++ [Rows rs] |}).

(** [df.iloc[a:b]]: the rows at positions [a], ..., [b - 1]. *)
Definition iloc (a b : nat) (d : DataFrame) : list Row :=
  take (b - a) (drop a (rows d)).

(** The row slices on a screen, in the order shown. *)
Fixpoint shown (scr : list Out) : list (list Row) :=
  match scr with
  | [] => []
  | Rows rs :: scr' => rs :: shown scr'
  | Std _ :: scr' => shown scr'
  end.

(** The events on a screen other than row slices. *)
Fixpoint events (scr : list Out) : list Event :=
  match scr with
  | [] => []
  | Std e :: scr' => e :: events scr'
  | Rows _ :: scr' => events scr'
  end.

End Console.
Export Console.

Declare Scope session_scope.
Delimit Scope session_scope with session.
Notation "x <~ m ;; k" := (sbind m (fun x => k))
  (at level 100, m at next level, right associativity) : session_scope.
Notation "m ;;~ k" := (sbind m (fun _ => k))
  (at level 100, right associativity) : session_scope.

Section Session.

Variable lower : string -> string.
Variable to_datetime : list Cell -> Res (list (option Z)).
Variable files : string -> option CsvFile.
Variable clock : nat -> Z.

Local Open Scope session_scope.

Definition chunk_size : nat := 5.

(** The loop of [display_raw_data] from [start_idx] on.  Every round that
    goes on moves [start_idx] forward, so [fuel] rounds are enough for a
    table of [fuel] rows. *)
Fixpoint display_loop (fuel : nat) (df start_idx : nat) : Act unit :=
  d <~ run (deref df) ;;
  if decide (start_idx < length (rows d))%nat then
    match fuel with
    | O => fun s => (Stuck, s)
    | S fuel' =>
        show_data <~ run (input "\nWould you like to see 5 rows of raw data? Enter yes/no.\n") ;;
        if decide (lower show_data ≠ "yes"%string) then sret tt
        else
          let end_idx := Nat.min (start_idx + chunk_size) (length (rows d)) in
          print_rows (iloc start_idx end_idx d) ;;~
          (if decide (length (rows d) <= end_idx)%nat
           then run (print (Text "\nNo more data to display."))
           else sret tt) ;;~
          display_loop fuel' df end_idx
    end
  else sret tt.

Definition display_raw_data (df : nat) : Act unit :=
  d <~ run (deref df) ;;
  display_loop (length (rows d)) df 0.

(** One round of [main]'s loop up to the restart question. *)
Definition analysis : Act string :=
  f <~ run (get_filters lower) ;;
  df <~ run (load_data lower to_datetime files f.1.1 f.1.2 f.2) ;;
  display_raw_data df ;;~
  run (time_stats clock df) ;;~
  run (station_stats clock df) ;;~
  run (trip_duration_stats clock df) ;;~
  run (user_stats clock df) ;;~
  run (input "\nRestart? Enter yes/no.\n").

(** [main]'s loop.  A round that goes on has read at least one line, so
    [fuel] rounds are enough for [fuel - 1] lines of input. *)
Fixpoint main_loop (fuel : nat) : Act unit :=
  match fuel with
  | O => fun s => (Stuck, s)
  | S fuel' =>
      restart <~ analysis ;;
      if decide (lower restart ≠ "yes"%string) then sret tt else main_loop fuel'
  end.

Definition main : Act unit :=
  fun s => main_loop (S (length (stdin (py s)))) s.

End Session.

(** ** What the loader leaves in the store

    The table after the three column assignments: line [i] of the file,
    labelled [i], with the derived cells set. *)
Section Loaded.

Variable lower : string -> string.

Definition add_column (c : string) (cols : list string) : list string :=
  if decide (c ∈ cols) then cols else cols ++ [c].

Definition month_cell (t : option Z) : Cell :=
  match t with Some ns => Str (lower (Calendar.month_name ns)) | None => NaN end.

Definition day_cell (t : option Z) : Cell :=
  match t with Some ns => Str (lower (Calendar.day_name ns)) | None => NaN end.

Definition hour_cell (t : option Z) : Cell :=
  match t with Some ns => Int (Calendar.hour ns) | None => NaN end.

Definition derive_row (i : nat) (fs : gmap string Cell) (t : option Z) : Row :=
  {| label := i;
     fields := <["hour" := hour_cell t]>
                 (<["day_of_week" := day_cell t]> (<["month" := month_cell t]> fs)) |}.

Definition derived (f : CsvFile) (ts : list (option Z)) : DataFrame :=
  {| columns := add_column "hour" (add_column "day_of_week" (add_column "month" (header f)));
     rows := imap (fun i p => derive_row i p.1 p.2) (zip (records f) ts) |}.

(** The rows of [d] whose cell [c] is the text [sel]. *)
Definition keep (c sel : string) (d : DataFrame) : DataFrame :=
  {| columns := columns d; rows := filter (fun r => cell c r = Str sel) (rows d) |}.

(** A row passes a selector when the selector is "all" or equals the
    row's cell. *)
Definition passes (c : string) (sel : string) (r : Row) : Prop :=
  sel ≠ "all"%string -> cell c r = Str sel.

#[global] Instance passes_dec c sel r : Decision (passes c sel r).
Proof. unfold passes. apply _. Defined.

End Loaded.

(** ** What the statistics report

    [least_mode s v]: [v] is a present value of the column [s] of highest
    frequency, and the least such value in the sort order. *)
Definition least_mode (s : list Cell) (v : Cell) : Prop :=
  notna v = true /\ v ∈ s /\
  forall u, u ∈ s -> notna u = true ->
    (count u s <= count v s)%nat /\ (count u s = count v s -> cell_le v u).

(** The keys of the rows in which both cells are present. *)
Definition full_keys (keys : list (Cell * Cell)) : list (Cell * Cell) :=
  filter (fun k => notna k.1 = true ∧ notna k.2 = true) keys.

(** [least_combo keys k]: [k] is a most frequent pair among the rows with
    both cells present, and the least such pair in the sort order. *)
Definition least_combo (keys : list (Cell * Cell)) (k : Cell * Cell) : Prop :=
  k ∈ full_keys keys /\
  forall k', k' ∈ full_keys keys ->
    (count k' (full_keys keys) <= count k (full_keys keys))%nat /\
    (count k' (full_keys keys) = count k (full_keys keys) -> pair_le k k').

(** Output events with the elapsed-time figure blanked. *)
Definition blank (e : Event) : Event :=
  match e with Elapsed _ => Elapsed 0 | _ => e end.

(** The state after printing [o] and reading the clock [n] times. *)
Definition emit (o : list Event) (n : nat) (w : World) : World :=
  {| heap := heap w; stdin := stdin w; stdout := stdout w ++ o;
     ticks := (n + ticks w)%nat |}.

(** What a run from [w] writes to standard output. *)
Definition printed {A} (m : M A) (w : World) : list Event :=
  drop (length (stdout w)) (stdout (m w).2).

(** Two outcomes agree: the same exception, or values related by [R]. *)
Definition res_rel {A} (R : A -> A -> Prop) (r1 r2 : Res A) : Prop :=
  match r1, r2 with
  | Ok a, Ok b => R a b
  | Raise e1, Raise e2 => e1 = e2
  | Stuck, Stuck => True
  | _, _ => False
  end.

(** Two computations agree: from any two states holding the same tables
    each only prints and reads the clock, their outcomes agree, and what
    they print differs at most in elapsed-time figures. *)
Definition agree {A} (R : A -> A -> Prop) (m1 m2 : M A) : Prop :=
  forall w1 w2, heap w1 = heap w2 ->
    exists r1 r2 o1 o2 n1 n2,
      m1 w1 = (r1, emit o1 n1 w1) /\ m2 w2 = (r2, emit o2 n2 w2) /\
      blank <$> o1 = blank <$> o2 /\ res_rel R r1 r2.

(** [s.mode()[0]] of column [c] of the table [d]. *)
Definition mode0_of (d : DataFrame) (c : string) : Res Cell :=
  match column c d with
  | Ok s => item0 (mode s)
  | Raise e => Raise e
  | Stuck => Stuck
  end.

(** ** A concrete setting for the examples

    Timestamps written [YYYY-MM-DD HH:MM:SS] as in the city files, ASCII
    lower-casing, a clock that advances by one per reading, and two small
    files. *)
Module Fixture.

Definition digit (a : ascii) : option Z :=
  let n := nat_of_ascii a in
  if ((48 <=? n) && (n <=? 57))%nat then Some (Z.of_nat n - 48) else None.

Fixpoint number (acc : Z) (s : list ascii) : option Z :=
  match s with
  | [] => Some acc
  | a :: s' => match digit a with Some d => number (10 * acc + d) s' | None => None end
  end.

Definition days_from_civil (y m d : Z) : Z :=
  let y := if m <=? 2 then y - 1 else y in
  let era := y / 400 in
  let yoe := y - era * 400 in
  let doy := (153 * (if 2 <? m then m - 3 else m + 9) + 2) / 5 + d - 1 in
  let doe := yoe * 365 + yoe / 4 - yoe / 100 + doy in
  era * 146097 + doe - 719468.

Definition parse_iso (s : string) : option Z :=
  match list_ascii_of_string s with
  | [y1; y2; y3; y4; "-"%char; m1; m2; "-"%char; d1; d2; " "%char;
     h1; h2; ":"%char; n1; n2; ":"%char; s1; s2] =>
      y ← number 0 [y1; y2; y3; y4];
      m ← number 0 [m1; m2];
      d ← number 0 [d1; d2];
      h ← number 0 [h1; h2];
      n ← number 0 [n1; n2];
      c ← number 0 [s1; s2];
      Some ((((days_from_civil y m d * 24 + h) * 60 + n) * 60 + c) * 1000000000)
  | _ => None
  end.

Fixpoint to_datetime (s : list Cell) : Res (list (option Z)) :=
  match s with
  | [] => Ok []
  | c :: s' =>
      match (match c with
             | NaN => Ok None
             | Int z => Ok (Some z)
             | Str t => match parse_iso t with
                        | Some ns => Ok (Some ns)
                        | None => Raise ValueError
                        end
             end), to_datetime s' with
      | Ok t, Ok ts => Ok (t :: ts)
      | Ok _, r => r
      | Raise e, _ => Raise e
      | Stuck, _ => Stuck
      end
  end.

Definition clock (n : nat) : Z := Z.of_nat n.

Definition trip (start : string) (dur : Z) (a b u : string) : gmap string Cell :=
  {[ "Start Time" := Str start; "Trip Duration" := Int dur;
     "Start Station" := Str a; "End Station" := Str b; "User Type" := Str u ]}.

Definition washington_csv : CsvFile :=
  {| header := ["Start Time"; "Trip Duration"; "Start Station"; "End Station";
                "User Type"];
     records := [trip "2017-01-02 09:07:57" 100 "B" "Y" "Subscriber";
                 trip "2017-01-03 09:20:53" 200 "A" "Z" "Customer";
                 trip "2017-02-06 17:00:00" 4000000 "A" "Y" "Subscriber"] |}.

Definition chicago_csv : CsvFile :=
  {| header := ["Start Time"; "Trip Duration"; "Start Station"; "End Station";
                "User Type"; "Gender"; "Birth Year"];
     records := [<["Gender" := Str "Male"]>
                   (trip "2017-06-23 15:09:32" 321 "A" "B" "Subscriber")] |}.

(** Two trips, every value occurring once: all frequencies tie. *)
Definition new_york_city_csv : CsvFile :=
  {| header := ["Start Time"; "Trip Duration"; "Start Station"; "End Station";
                "User Type"];
     records := [trip "2017-03-06 17:00:00" 60 "B" "Y" "Customer";
                 trip "2017-01-08 09:00:00" 60 "A" "Z" "Subscriber"] |}.

(** One trip whose birth year is missing, in a file without Gender. *)
Definition birth_only_csv : CsvFile :=
  {| header := ["Start Time"; "Trip Duration"; "Start Station"; "End Station";
                "User Type"; "Birth Year"];
     records := [trip "2017-05-01 08:00:00" 75 "A" "B" "Customer"] |}.

Definition files (path : string) : option CsvFile :=
  if decide (path = "washington.csv") then Some washington_csv
  else if decide (path = "chicago.csv") then Some chicago_csv
  else if decide (path = "new_york_city.csv") then Some new_york_city_csv
  else None.

(** The timestamps [to_datetime] reads from a file. *)
Definition times_of (f : CsvFile) : list (option Z) :=
  match to_datetime (cell "Start Time" <$> rows (frame_of_csv f)) with
  | Ok ts => ts
  | _ => []
  end.

(** A clock whose successive readings drift apart. *)
Definition drifting_clock (n : nat) : Z := Z.of_nat (n * n).

Definition world (ins : list string) : World :=
  {| heap := []; stdin := ins; stdout := []; ticks := 0 |}.

(** A state whose store holds just the table [d]. *)
Definition holding (d : DataFrame) : World :=
  {| heap := [d]; stdin := []; stdout := []; ticks := 0 |}.

Definition load (city month day : string) : M nat :=
  load_data lower_ascii to_datetime files city month day.

(** The table a file gives once its derived columns are set. *)
Definition table (f : CsvFile) : DataFrame := derived lower_ascii f (times_of f).

Definition washington_table : DataFrame := table washington_csv.
Definition washington_raw : DataFrame := frame_of_csv washington_csv.
Definition new_york_table : DataFrame := table new_york_city_csv.
Definition birth_only_table : DataFrame := table birth_only_csv.

Definition washington_user_types : list Cell :=
  [Str "Subscriber"; Str "Customer"; Str "Subscriber"].

Definition first_row (d : DataFrame) : Row :=
  default {| label := 0; fields := ∅ |} (head (rows d)).

End Fixture.


(** Column [c] of the table [d] exists and holds at least one value. *)
Definition has_value (d : DataFrame) (c : string) : Prop :=
  c ∈ columns d /\ exists v, v ∈ (cell c <$> rows d) /\ notna v = true.

(** Some row of [d] holds a value in both columns. *)
Definition has_pair (d : DataFrame) (a b : string) : Prop :=
  exists r, r ∈ rows d /\ notna (cell a r) = true /\ notna (cell b r) = true.

(** ** Checking a predicate on a range of integers *)

(** [p] holds at [z], [z + 1], ..., [z + n - 1]. *)
Fixpoint all_from (n : nat) (z : Z) (p : Z -> bool) : bool :=
  match n with
  | O => true
  | S n' => p z && all_from n' (z + 1) p
  end.

(** The month number of [Calendar.month] as a function of the day
    within its 400-year era. *)
Definition month_of_era_day (doe : Z) : Z :=
  let yoe := (doe - doe / 1460 + doe / 36524 - doe / 146096) / 365 in
  let doy := doe - (365 * yoe + yoe / 4 - yoe / 100) in
  let mp := (5 * doy + 2) / 153 in
  if mp <? 10 then mp + 3 else mp - 9.

(** ** Session steps

    The session after [k] lines were read and [o] was put on the screen:
    the store and the clock are as before. *)
Definition advance (k : nat) (o : list Out) (s : Session) : Session :=
  {| py := {| heap := heap (py s);
              stdin := drop k (stdin (py s));
              stdout := stdout (py s) ++ events o;
              ticks := ticks (py s) |};
     screen := screen s ++ o |}.

Definition raw_prompt : Event :=
  Prompt "\nWould you like to see 5 rows of raw data? Enter yes/no.\n".

Definition no_more : Event := Text "\nNo more data to display.".

(** What one page of [display_raw_data] puts on the screen, from row [a]
    of [d] on. *)
Definition page (d : DataFrame) (a : nat) : list Out :=
  let e := Nat.min (a + chunk_size) (length (rows d)) in
  [Std raw_prompt; Rows (iloc a e d)]
  ++ (if decide (length (rows d) <= e)%nat then [Std no_more] else []).

(** * Properties *)

Local Open Scope py_scope.

(** ** Running the monad *)

Lemma bind_Ok {A B} (m : M A) (k : A -> M B) w a w' :
  m w = (Ok a, w') -> bind m k w = k a w'.
Proof. intros H. unfold bind. by rewrite H. Qed.

Lemma bind_Raise {A B} (m : M A) (k : A -> M B) w e w' :
  m w = (Raise e, w') -> bind m k w = (Raise e, w').
Proof. intros H. unfold bind. by rewrite H. Qed.

Lemma lookup_snoc {A} (h : list A) (d : A) : (h ++ [d]) !! length h = Some d.
Proof. by rewrite list_lookup_middle. Qed.

Lemma insert_snoc {A} (h : list A) (d d' : A) : <[length h := d']> (h ++ [d]) = h ++ [d'].
Proof.
  rewrite insert_app_r_alt by lia. by rewrite Nat.sub_diag.
Qed.

Lemma world_eta w :
  {| heap := heap w; stdin := stdin w; stdout := stdout w; ticks := ticks w |} = w.
Proof. by destruct w. Qed.

Lemma bind_ret {A B} (a : A) (k : A -> M B) w : bind (ret a) k w = k a w.
Proof. done. Qed.

Lemma getcol_run l c d w :
  heap w !! l = Some d -> getcol l c w = (column c d, w).
Proof.
  intros H. unfold getcol, bind, deref, of_option, ret, lift. rewrite H.
  by destruct (column c d).
Qed.

Lemma getcol_Ok l c d s w :
  heap w !! l = Some d -> column c d = Ok s -> getcol l c w = (Ok s, w).
Proof. intros H Hc. by rewrite (getcol_run _ _ d), Hc. Qed.

Lemma setcol_run l c s d d' w :
  heap w !! l = Some d -> assign c s d = Ok d' ->
  setcol l c s w =
    (Ok tt, {| heap := <[l:=d']> (heap w); stdin := stdin w;
               stdout := stdout w; ticks := ticks w |}).
Proof.
  intros H Ha. unfold setcol, bind, deref, of_option, ret, lift, store.
  by rewrite H, Ha.
Qed.

Lemma getrows_run l mask d d' w :
  heap w !! l = Some d -> select mask d = Ok d' ->
  getrows l mask w =
    (Ok (length (heap w)),
     {| heap := heap w ++ [d']; stdin := stdin w;
        stdout := stdout w; ticks := ticks w |}).
Proof.
  intros H Ha. unfold getrows, bind, deref, of_option, ret, lift, alloc.
  by rewrite H, Ha.
Qed.

Ltac step :=
  erewrite bind_Ok by reflexivity; cbn [heap stdin stdout ticks].

Ltac step_by tac :=
  erewrite bind_Ok by tac; cbn [heap stdin stdout ticks].

(** ** The loader *)
Section Loader.

Variable lower : string -> string.
Variable to_datetime : list Cell -> Res (list (option Z)).
Variable files : string -> option CsvFile.

Lemma derive_rows_eq (g : nat -> nat) (recs : list (gmap string Cell)) ts :
  zip_with (set_cell "hour") (dt_hour ts)
    (zip_with (set_cell "day_of_week") (dt_day_name_lower lower ts)
       (zip_with (set_cell "month") (dt_month_name_lower lower ts)
          (imap (fun i fs => {| label := g i; fields := fs |}) recs)))
  = imap (fun i p => derive_row lower (g i) p.1 p.2) (zip recs ts).
Proof.
  revert g ts. induction recs as [|fs recs IH]; intros g ts.
  - by destruct ts.
  - destruct ts as [|t ts]; [done|]. cbn.
    f_equal. apply (IH (g ∘ S)).
Qed.

Lemma read_and_derive_run city path f ts w :
  (city, path) ∈ CITY_DATA ->
  files path = Some f ->
  ("Start Time" : string) ∈ header f ->
  to_datetime (cell "Start Time" <$> rows (frame_of_csv f)) = Ok ts ->
  length ts = length (records f) ->
  read_and_derive lower to_datetime files city w =
    (Ok (length (heap w)),
     {| heap := heap w ++ [derived lower f ts]; stdin := stdin w;
        stdout := stdout w; ticks := ticks w |}).
Proof.
  intros Hc Hf Hs Ht Hl.
  assert (Hp : city_file city = ret path).
  { unfold CITY_DATA in Hc. rewrite !elem_of_cons in Hc.
    destruct Hc as [[= -> ->]|[[= -> ->]|[[= -> ->]|Hc]]]; [done..|].
    by apply elem_of_nil in Hc. }
  assert (Hlen : forall s : list Cell, length s = length ts ->
            length s = length (rows (frame_of_csv f))).
  { intros s ->. cbn. by rewrite length_imap. }
  unfold read_and_derive. rewrite Hp, bind_ret.
  unfold read_csv. rewrite Hf.
  erewrite bind_Ok by reflexivity. cbn [alloc].
  erewrite bind_Ok; cycle 1.
  { rewrite (getcol_run _ _ (frame_of_csv f)) by apply lookup_snoc.
    unfold column. by rewrite decide_True. }
  rewrite Ht. erewrite bind_Ok by reflexivity.
  erewrite bind_Ok; cycle 1.
  { eapply setcol_run; [apply lookup_snoc|].
    unfold assign. rewrite decide_True; [done|].
    apply Hlen. unfold dt_month_name_lower. by rewrite length_fmap. }
  cbn [heap stdin stdout ticks]. rewrite insert_snoc.
  erewrite bind_Ok; cycle 1.
  { eapply setcol_run; [apply lookup_snoc|].
    unfold assign. rewrite decide_True; [done|]. cbn [rows].
    unfold dt_day_name_lower, dt_month_name_lower.
    rewrite length_zip_with, !length_fmap.
    cbn. rewrite length_imap. lia. }
  cbn [heap stdin stdout ticks]. rewrite insert_snoc.
  erewrite bind_Ok; cycle 1.
  { eapply setcol_run; [apply lookup_snoc|].
    unfold assign. rewrite decide_True; [done|]. cbn [rows].
    unfold dt_hour, dt_day_name_lower, dt_month_name_lower.
    rewrite !length_zip_with, !length_fmap.
    cbn. rewrite length_imap. lia. }
  cbn [heap stdin stdout ticks]. rewrite insert_snoc.
  unfold ret. do 3 f_equal. unfold derived. cbn [columns rows frame_of_csv].
  do 2 f_equal. apply (derive_rows_eq id).
Qed.

Lemma elem_of_add_column c cols : c ∈ add_column c cols.
Proof. unfold add_column. case_decide; [done|]. set_solver. Qed.

Lemma add_column_mono c c' cols : c ∈ cols -> c ∈ add_column c' cols.
Proof. unfold add_column. case_decide; [done|]. set_solver. Qed.

Lemma derived_has_month f ts : ("month" : string) ∈ columns (derived lower f ts).
Proof. cbn. do 2 apply add_column_mono. apply elem_of_add_column. Qed.

Lemma derived_has_day f ts : ("day_of_week" : string) ∈ columns (derived lower f ts).
Proof. cbn. apply add_column_mono. apply elem_of_add_column. Qed.

Lemma select_eq_mask c v d :
  select (eq_mask (cell c <$> rows d) (Str v)) d = Ok (keep c v d).
Proof.
  unfold select, eq_mask. rewrite decide_True by by rewrite !length_fmap.
  unfold keep. do 2 f_equal.
  induction (rows d) as [|r rs IH]; [done|].
  cbn [fmap list_fmap zip zip_with]. rewrite !filter_cons. cbn [snd].
  destruct (decide (cell c r = Str v)) as [E|E].
  - rewrite bool_decide_eq_true_2 by done. rewrite decide_True by done.
    cbn. f_equal. apply IH.
  - rewrite bool_decide_eq_false_2 by done. rewrite decide_False by done.
    apply IH.
Qed.

Lemma filter_step df c sel d w :
  heap w !! df = Some d -> c ∈ columns d ->
  (m <- getcol df c ;; getrows df (eq_mask m (Str sel))) w =
  (Ok (length (heap w)),
   {| heap := heap w ++ [keep c sel d]; stdin := stdin w;
      stdout := stdout w; ticks := ticks w |}).
Proof.
  intros Hd Hc.
  erewrite bind_Ok; cycle 1.
  { rewrite (getcol_run _ _ d) by done. unfold column. by rewrite decide_True. }
  eapply getrows_run; [done|]. apply select_eq_mask.
Qed.

Lemma filter_passes (sel : string) c (l : list Row) :
  filter (passes c sel) l =
  if decide (sel ≠ "all"%string) then filter (fun r => cell c r = Str sel) l else l.
Proof.
  case_decide as E.
  - apply list_filter_iff. intros r. unfold passes. naive_solver.
  - induction l as [|r l IH]; [done|].
    rewrite filter_cons, decide_True, IH; [done|].
    intros ?. done.
Qed.

Lemma apply_filters_run df month day d w :
  heap w !! df = Some d ->
  ("month" : string) ∈ columns d -> ("day_of_week" : string) ∈ columns d ->
  exists l w',
    apply_filters df month day w = (Ok l, w') /\
    heap w' !! l =
      Some {| columns := columns d;
              rows := filter (passes "day_of_week" day)
                        (filter (passes "month" month) (rows d)) |} /\
    heap w `prefix_of` heap w' /\
    (month ≠ "all" ∨ day ≠ "all" -> (length (heap w) <= l)%nat) /\
    stdin w' = stdin w /\ stdout w' = stdout w /\ ticks w' = ticks w.
Proof.
  intros Hd Hm Hy. unfold apply_filters.
  rewrite !filter_passes.
  destruct (decide (month ≠ "all"%string)) as [Em|Em];
    destruct (decide (day ≠ "all"%string)) as [Ed|Ed].
  - erewrite bind_Ok by (by apply (filter_step _ _ _ d)).
    erewrite bind_Ok; cycle 1.
    { apply (filter_step _ _ _ (keep "month" month d)); [apply lookup_snoc|done]. }
    cbn [heap stdin stdout ticks]. rewrite length_app. cbn [length].
    eexists _, _. split; [reflexivity|]. cbn [heap stdin stdout ticks].
    split_and!; try done.
    + replace (length (heap w) + 1)%nat with (length (heap w ++ [keep "month" month d]))
        by (rewrite length_app; done).
      by rewrite lookup_snoc.
    + rewrite <- app_assoc. by apply prefix_app_r.
    + lia.
  - erewrite bind_Ok by (by apply (filter_step _ _ _ d)).
    rewrite bind_ret.
    eexists _, _. split; [reflexivity|]. cbn [heap stdin stdout ticks].
    split_and!; try done.
    + by rewrite lookup_snoc.
    + by apply prefix_app_r.
  - rewrite bind_ret.
    erewrite bind_Ok by (by apply (filter_step _ _ _ d)).
    eexists _, _. split; [reflexivity|]. cbn [heap stdin stdout ticks].
    split_and!; try done.
    + by rewrite lookup_snoc.
    + by apply prefix_app_r.
  - rewrite !bind_ret.
    eexists _, _. split; [reflexivity|].
    split_and!; try done.
    + rewrite Hd. by destruct d.
    + intros [?|?]; done.
Qed.

Lemma load_data_run city path f ts month day w :
  (city, path) ∈ CITY_DATA ->
  files path = Some f ->
  ("Start Time" : string) ∈ header f ->
  to_datetime (cell "Start Time" <$> rows (frame_of_csv f)) = Ok ts ->
  length ts = length (records f) ->
  exists l w',
    load_data lower to_datetime files city month day w = (Ok l, w') /\
    heap w' !! length (heap w) = Some (derived lower f ts) /\
    heap w' !! l =
      Some {| columns := columns (derived lower f ts);
              rows := filter (passes "day_of_week" day)
                        (filter (passes "month" month) (rows (derived lower f ts))) |} /\
    heap w `prefix_of` heap w' /\
    (month ≠ "all" ∨ day ≠ "all" -> (length (heap w) < l)%nat) /\
    stdin w' = stdin w /\ stdout w' = stdout w /\ ticks w' = ticks w.
Proof.
  intros Hc Hf Hs Ht Hl. unfold load_data.
  erewrite bind_Ok by (by eapply read_and_derive_run).
  set (w0 := {| heap := heap w ++ [derived lower f ts]; stdin := stdin w;
                stdout := stdout w; ticks := ticks w |}).
  destruct (apply_filters_run (length (heap w)) month day (derived lower f ts) w0)
    as (l & w' & Hrun & Hout & Hpre & Hfresh & Hin & Hso & Hti).
  { apply lookup_snoc. }
  { apply derived_has_month. }
  { apply derived_has_day. }
  exists l, w'. split; [done|]. subst w0. cbn [heap] in Hpre, Hfresh.
  split_and!; try done.
  - eapply prefix_lookup_Some; [|done]. apply lookup_snoc.
  - etrans; [|done]. by apply prefix_app_r.
  - intros H. specialize (Hfresh H). rewrite length_app in Hfresh. cbn in Hfresh. lia.
Qed.

Lemma sorted_seq (a n : nat) : StronglySorted lt (seq a n).
Proof.
  revert a. induction n as [|n IH]; intros a; cbn; constructor; [apply IH|].
  apply Forall_forall. intros x Hx. apply elem_of_seq in Hx. lia.
Qed.

Lemma sorted_lt_NoDup (l : list nat) : StronglySorted lt l -> NoDup l.
Proof.
  induction 1 as [|x xs Hxs IH Hx]; constructor; [|done].
  intros Hin. rewrite Forall_forall in Hx. specialize (Hx _ Hin). lia.
Qed.

Lemma sorted_fmap_filter {A} (g : A -> nat) (P : A -> Prop)
    `{!forall x, Decision (P x)} (l : list A) :
  StronglySorted lt (g <$> l) -> StronglySorted lt (g <$> filter P l).
Proof.
  induction l as [|x l IH]; [done|]. rewrite fmap_cons. intros Hs.
  apply StronglySorted_inv in Hs as [H1 H2].
  rewrite filter_cons. case_decide; [|by apply IH].
  rewrite fmap_cons. constructor; [by apply IH|].
  rewrite Forall_forall in *. intros y Hy. apply H2.
  apply list_elem_of_fmap in Hy as (z & -> & Hz).
  apply list_elem_of_filter in Hz as [_ Hz].
  apply list_elem_of_fmap. eauto.
Qed.

Lemma derived_labels f ts :
  label <$> rows (derived lower f ts) = seq 0 (length (zip (records f) ts)).
Proof.
  cbn [derived rows]. rewrite fmap_imap.
  rewrite (imap_seq_0 _ (fun i => i)). by rewrite list_fmap_id.
Qed.

Lemma derived_row_inv f ts r :
  r ∈ rows (derived lower f ts) ->
  exists fs t, records f !! label r = Some fs /\ ts !! label r = Some t /\
               r = derive_row lower (label r) fs t.
Proof.
  intros Hr. apply list_elem_of_lookup in Hr as [i Hi].
  cbn [derived rows] in Hi. rewrite list_lookup_imap in Hi.
  destruct (zip (records f) ts !! i) as [[fs t]|] eqn:E; [|done].
  cbn in Hi. injection Hi as <-. cbn.
  apply lookup_zip_Some in E as [E1 E2]. eauto.
Qed.

(** C1. For a city whose file loads, [load_data] returns a table holding
    exactly the loaded records that pass both selectors: every record in
    it has the selected month unless the month selector is "all", the
    selected weekday unless the day selector is "all", and a selector
    "all" keeps every record the other selector keeps. *)
Theorem load_data_filters city path f ts month day w :
  (city, path) ∈ CITY_DATA ->
  files path = Some f ->
  ("Start Time" : string) ∈ header f ->
  to_datetime (cell "Start Time" <$> rows (frame_of_csv f)) = Ok ts ->
  length ts = length (records f) ->
  exists l w' out,
    load_data lower to_datetime files city month day w = (Ok l, w') /\
    heap w' !! l = Some out /\
    (forall r, r ∈ rows out -> month ≠ "all" -> cell "month" r = Str month) /\
    (forall r, r ∈ rows out -> day ≠ "all" -> cell "day_of_week" r = Str day) /\
    (month = "all" ->
       rows out = filter (passes "day_of_week" day) (rows (derived lower f ts))) /\
    (day = "all" ->
       rows out = filter (passes "month" month) (rows (derived lower f ts))) /\
    (forall r, r ∈ rows out <->
       r ∈ rows (derived lower f ts) /\
       (month ≠ "all" -> cell "month" r = Str month) /\
       (day ≠ "all" -> cell "day_of_week" r = Str day)).
Proof.
  intros Hc Hf Hs Ht Hl.
  destruct (load_data_run city path f ts month day w Hc Hf Hs Ht Hl)
    as (l & w' & Hrun & _ & Hout & _).
  eexists l, w', _. split; [done|]. split; [done|]. cbn [rows].
  assert (Hiff : forall r,
    r ∈ filter (passes "day_of_week" day)
          (filter (passes "month" month) (rows (derived lower f ts))) <->
    r ∈ rows (derived lower f ts) /\
    (month ≠ "all" -> cell "month" r = Str month) /\
    (day ≠ "all" -> cell "day_of_week" r = Str day)).
  { intros r. rewrite !list_elem_of_filter. unfold passes. tauto. }
  split_and!.
  - intros r Hr. apply Hiff in Hr as (_ & H1 & _). done.
  - intros r Hr. apply Hiff in Hr as (_ & _ & H1). done.
  - intros ->. f_equal. rewrite (filter_passes "all"). by rewrite decide_False by tauto.
  - intros ->. rewrite (filter_passes "all" "day_of_week").
    by rewrite decide_False by tauto.
  - done.
Qed.

(** C9. The selections of [load_data] leave the loaded table as it was:
    the object read from the file, with its derived columns, is still in
    the store unchanged when [load_data] returns, as is every other table
    that existed before; a selection that is applied returns a new
    object. *)
Theorem load_data_source_unchanged city path f ts month day w :
  (city, path) ∈ CITY_DATA ->
  files path = Some f ->
  ("Start Time" : string) ∈ header f ->
  to_datetime (cell "Start Time" <$> rows (frame_of_csv f)) = Ok ts ->
  length ts = length (records f) ->
  exists src w0 l w',
    read_and_derive lower to_datetime files city w = (Ok src, w0) /\
    heap w0 !! src = Some (derived lower f ts) /\
    apply_filters src month day w0 = (Ok l, w') /\
    load_data lower to_datetime files city month day w = (Ok l, w') /\
    heap w' !! src = Some (derived lower f ts) /\
    (forall k d, heap w0 !! k = Some d -> heap w' !! k = Some d) /\
    (month ≠ "all" ∨ day ≠ "all" -> l ≠ src /\ heap w0 !! l = None) /\
    (month = "all" -> day = "all" -> l = src).
Proof.
  intros Hc Hf Hs Ht Hl.
  pose proof (read_and_derive_run city path f ts w Hc Hf Hs Ht Hl) as H0.
  set (w0 := {| heap := heap w ++ [derived lower f ts]; stdin := stdin w;
                stdout := stdout w; ticks := ticks w |}) in *.
  destruct (apply_filters_run (length (heap w)) month day (derived lower f ts) w0)
    as (l & w' & Hrun & Hout & Hpre & Hfresh & _).
  { apply lookup_snoc. }
  { apply derived_has_month. }
  { apply derived_has_day. }
  exists (length (heap w)), w0, l, w'.
  assert (Hsrc : heap w0 !! length (heap w) = Some (derived lower f ts))
    by apply lookup_snoc.
  split_and!; try done.
  - unfold load_data. by erewrite bind_Ok by done.
  - by eapply prefix_lookup_Some.
  - intros k d Hk. by eapply prefix_lookup_Some.
  - intros H. specialize (Hfresh H). cbn [heap w0] in Hfresh.
    rewrite length_app in Hfresh. cbn in Hfresh. split; [lia|].
    apply lookup_ge_None. cbn. rewrite length_app. cbn. lia.
  - intros -> ->. unfold apply_filters in Hrun.
    rewrite !decide_False in Hrun by (intros ?; done).
    by injection Hrun.
Qed.

(** C10. The table [load_data] returns is a subsequence of the loaded
    records in file order: its rows are rows of the loaded table, their
    line numbers strictly increase (no record twice, relative order kept),
    and each row carries every cell of its line of the file apart from the
    three derived columns. *)
Theorem load_data_subsequence city path f ts month day w :
  (city, path) ∈ CITY_DATA ->
  files path = Some f ->
  ("Start Time" : string) ∈ header f ->
  to_datetime (cell "Start Time" <$> rows (frame_of_csv f)) = Ok ts ->
  length ts = length (records f) ->
  exists l w' out,
    load_data lower to_datetime files city month day w = (Ok l, w') /\
    heap w' !! l = Some out /\
    rows out `sublist_of` rows (derived lower f ts) /\
    StronglySorted lt (label <$> rows out) /\
    NoDup (rows out) /\
    (forall r, r ∈ rows out ->
       exists fs t,
         records f !! label r = Some fs /\ ts !! label r = Some t /\
         r = derive_row lower (label r) fs t /\
         forall c : string,
           c ∉ ["month"; "day_of_week"; "hour"]%string ->
           cell c r = default NaN (fs !! c)).
Proof.
  intros Hc Hf Hs Ht Hl.
  destruct (load_data_run city path f ts month day w Hc Hf Hs Ht Hl)
    as (l & w' & Hrun & _ & Hout & _).
  eexists l, w', _. split; [done|]. split; [done|]. cbn [rows].
  assert (Hsorted : StronglySorted lt
            (label <$> filter (passes "day_of_week" day)
               (filter (passes "month" month) (rows (derived lower f ts))))).
  { do 2 apply sorted_fmap_filter. rewrite derived_labels. apply sorted_seq. }
  split_and!.
  - etrans; apply sublist_filter.
  - done.
  - apply (NoDup_fmap_1 label). by apply sorted_lt_NoDup.
  - intros r Hr. apply list_elem_of_filter in Hr as [_ Hr].
    apply list_elem_of_filter in Hr as [_ Hr].
    destruct (derived_row_inv f ts r Hr) as (fs & t & H1 & H2 & H3).
    exists fs, t. split_and!; try done.
    intros c Hn. rewrite H3. unfold cell, derive_row. cbn [fields].
    rewrite !lookup_insert_ne; [done|..]; intros <-; apply Hn;
      rewrite !elem_of_cons; tauto.
Qed.

End Loader.

(** ** Trip durations *)

Lemma breakdown_sum T :
  let '(d, h, m, s) := breakdown T in d * 86400 + h * 3600 + m * 60 + s = T.
Proof.
  unfold breakdown.
  pose proof (Z.div_mod T 86400 ltac:(lia)).
  pose proof (Z.div_mod (T mod 86400) 3600 ltac:(lia)).
  pose proof (Z.div_mod (T mod 3600) 60 ltac:(lia)).
  assert (H3600 : (T mod 86400) mod 3600 = T mod 3600).
  { apply Z.mod_mod_divide. by exists 24. }
  assert (H60 : (T mod 3600) mod 60 = T mod 60).
  { apply Z.mod_mod_divide. by exists 60. }
  lia.
Qed.

(** C2. For a non-negative total [T] the four figures computed by
    [trip_duration_stats] rebuild [T] exactly, and hours, minutes and
    seconds stay within their ranges. *)
Theorem breakdown_exact T :
  0 <= T ->
  let '(d, h, m, s) := breakdown T in
  d * 86400 + h * 3600 + m * 60 + s = T /\
  0 <= d /\ 0 <= h < 24 /\ 0 <= m < 60 /\ 0 <= s < 60.
Proof.
  intros HT. pose proof (breakdown_sum T) as Hsum. unfold breakdown in *.
  split; [done|].
  pose proof (Z.mod_pos_bound T 86400 ltac:(lia)).
  pose proof (Z.mod_pos_bound T 3600 ltac:(lia)).
  pose proof (Z.mod_pos_bound T 60 ltac:(lia)).
  split_and!; try lia.
  - by apply Z.div_pos.
  - apply Z.div_pos; lia.
  - apply Z.div_lt_upper_bound; lia.
  - apply Z.div_pos; lia.
  - apply Z.div_lt_upper_bound; lia.
Qed.

Lemma breakdown_exact_witness :
  0 <= 4000300 /\
  let '(d, h, m, s) := breakdown 4000300 in
  d * 86400 + h * 3600 + m * 60 + s = 4000300 /\
  0 <= d /\ 0 <= h < 24 /\ 0 <= m < 60 /\ 0 <= s < 60.
Proof. split; [lia | apply (breakdown_exact 4000300); lia]. Defined.

Section Durations.

Variable clock : nat -> Z.

Lemma trip_duration_stats_run l d col xs dd hh mm ss w :
  heap w !! l = Some d ->
  column "Trip Duration" d = Ok col ->
  int64_values col = Some xs ->
  let mean := Float64.mean xs in
  let k := Float64.of_Z in
  Float64.to_int (Float64.floordiv mean (k 86400)) = Ok dd ->
  Float64.to_int (Float64.floordiv (Float64.remainder mean (k 86400)) (k 3600)) = Ok hh ->
  Float64.to_int (Float64.floordiv (Float64.remainder mean (k 3600)) (k 60)) = Ok mm ->
  Float64.to_int (Float64.remainder mean (k 60)) = Ok ss ->
  trip_duration_stats clock l w =
    (Ok tt,
     {| heap := heap w; stdin := stdin w;
        stdout := stdout w ++
          [Text "\nCalculating Trip Duration...\n";
           (let '(d, h, m, s) := breakdown (Int64.sum xs) in Span "Total" d h m s);
           Span "Mean" dd hh mm ss;
           Elapsed (clock (S (ticks w)) - clock (ticks w));
           Text (rule 40)];
        ticks := S (S (ticks w)) |}).
Proof.
  intros Hd Hc Hx mean k H1 H2 H3 H4.
  unfold trip_duration_stats, took.
  step. step.
  step_by ltac:(by eapply getcol_Ok).
  rewrite Hx. step.
  destruct (breakdown (Int64.sum xs)) as [[[d0 h0] m0] s0].
  step.
  step_by ltac:(by eapply getcol_Ok).
  rewrite Hx. step.
  fold mean. fold k. rewrite H1, H2, H3, H4.
  do 4 step. step. step.
  unfold print. cbn [heap stdin stdout ticks]. rewrite <- !app_assoc. done.
Qed.

End Durations.

(** ** The sort order *)

Lemma string_compare_lt_trans s t u :
  String.compare s t = Lt -> String.compare t u = Lt -> String.compare s u = Lt.
Proof.
  revert t u. induction s as [|a s IH]; intros [|b t] [|c u]; simpl; try done.
  unfold Ascii.compare.
  destruct (N.compare_spec (N_of_ascii a) (N_of_ascii b)) as [E1|L1|G1];
    destruct (N.compare_spec (N_of_ascii b) (N_of_ascii c)) as [E2|L2|G2];
    try done; intros H1 H2.
  - rewrite E1, E2, N.compare_refl. by apply (IH t).
  - rewrite E1. by apply N.compare_lt_iff in L2 as ->.
  - rewrite <- E2. by apply N.compare_lt_iff in L1 as ->.
  - assert (L : (N_of_ascii a < N_of_ascii c)%N) by lia.
    by apply N.compare_lt_iff in L as ->.
Qed.

Lemma string_leb_trans s t u :
  String.leb s t = true -> String.leb t u = true -> String.leb s u = true.
Proof.
  unfold String.leb.
  destruct (String.compare s t) eqn:E1; [|
    destruct (String.compare t u) eqn:E2 |]; try done.
  - apply String.compare_eq_iff in E1 as ->. done.
  - apply String.compare_eq_iff in E2 as ->. by rewrite E1.
  - by rewrite (string_compare_lt_trans s t u).
Qed.

#[global] Instance cell_le_total : Total cell_le.
Proof.
  intros [|x|s] [|y|t]; unfold cell_le; cbn; auto.
  - destruct (Z.leb_spec x y); [by left|right]. apply Z.leb_le. lia.
  - destruct (String.leb_total s t); auto.
Qed.

#[global] Instance cell_le_trans : Transitive cell_le.
Proof.
  intros [|x|s] [|y|t] [|z|u]; unfold cell_le; cbn; try done.
  - rewrite !Z.leb_le. lia.
  - apply string_leb_trans.
Qed.

#[global] Instance cell_le_antisymm : AntiSymm (=) cell_le.
Proof.
  intros [|x|s] [|y|t]; unfold cell_le; cbn; try done.
  - rewrite !Z.leb_le. intros. f_equal. lia.
  - intros. f_equal. by apply String.leb_antisym.
Qed.

#[global] Instance pair_le_total : Total pair_le.
Proof.
  intros [a1 a2] [b1 b2]. unfold pair_le, pair_leb. cbn.
  destruct (decide (a1 = b1)) as [->|N].
  - rewrite decide_True by done. apply (total cell_le).
  - rewrite decide_False by done. apply (total cell_le).
Qed.

#[global] Instance pair_le_trans : Transitive pair_le.
Proof.
  intros [a1 a2] [b1 b2] [c1 c2]. unfold pair_le, pair_leb. cbn.
  repeat case_decide; subst; try done.
  - apply (transitivity (R:=cell_le)).
  - intros H1 H2. destruct H. by apply (anti_symm cell_le).
  - apply (transitivity (R:=cell_le)).
Qed.

(** ** Counting, modes and the largest group *)
Section CountingFacts.
Context {K : Type} `{EqDecision K}.

Lemma elem_of_unique (s : list K) v : v ∈ unique s <-> v ∈ s.
Proof.
  induction s as [|x s IH]; [done|]. cbn.
  rewrite !elem_of_cons, list_elem_of_filter, IH.
  destruct (decide (v = x)); tauto.
Qed.

Lemma NoDup_unique (s : list K) : NoDup (unique s).
Proof.
  induction s as [|x s IH]; cbn; constructor.
  - rewrite list_elem_of_filter. tauto.
  - by apply NoDup_filter.
Qed.

Lemma count_le_max (s : list K) v : v ∈ s -> (count v s <= max_count s)%nat.
Proof.
  intros Hv. unfold max_count.
  apply max_list_elem_of_le, list_elem_of_fmap. eauto.
Qed.

Lemma max_count_attained (s : list K) :
  s ≠ [] -> exists v, v ∈ s /\ count v s = max_count s.
Proof.
  intros Hs. unfold max_count.
  pose proof (max_list_elem_of ((fun v => count v s) <$> s)) as Hin.
  apply list_elem_of_fmap in Hin as (v & Hv & Hin); [eauto|].
  by destruct s.
Qed.

(** The first entry of largest count: everything before it is smaller,
    nothing after it is larger. *)
Lemma argmax_from_split (best : K * nat) (l : list (K * nat)) :
  exists n pre post,
    best :: l = pre ++ (argmax_from best l, n) :: post /\
    (forall q, q ∈ pre -> (q.2 < n)%nat) /\
    (forall q, q ∈ post -> (q.2 <= n)%nat).
Proof.
  revert best. induction l as [|p l IH]; intros best.
  - exists best.2, [], []. destruct best. cbn. split_and!; [done|..]; by intros q ?%elem_of_nil.
  - cbn [argmax_from]. destruct (Nat.ltb_spec best.2 p.2) as [Hlt|Hge].
    + destruct (IH p) as (n & pre & post & E & Hpre & Hpost).
      exists n, (best :: pre), post. split_and!.
      * cbn. by rewrite E.
      * intros q [->|Hq]%elem_of_cons; [|by apply Hpre].
        assert (Hp : (p.2 <= n)%nat); [|lia].
        assert (Hin : p ∈ pre ++ (argmax_from p l, n) :: post) by (rewrite <- E; left).
        rewrite elem_of_app, elem_of_cons in Hin.
        destruct Hin as [Hin|[->|Hin]]; [apply Hpre in Hin; lia|done|by apply Hpost].
      * done.
    + destruct (IH best) as (n & pre & post & E & Hpre & Hpost).
      destruct pre as [|b pre].
      * cbn in E. injection E as E1 E2. exists n, [], (p :: post). split_and!.
        -- cbn. rewrite <- E1. by rewrite E2.
        -- by intros q ?%elem_of_nil.
        -- intros q [->|Hq]%elem_of_cons; [|by apply Hpost].
           rewrite E1 in Hge. cbn in Hge. lia.
      * cbn in E. injection E as E1 E2. subst b.
        exists n, (best :: p :: pre), post. split_and!.
        -- cbn. do 2 f_equal. exact E2.
        -- intros q Hq. rewrite !elem_of_cons in Hq.
           destruct Hq as [->|[->|Hq]].
           ++ apply Hpre. left.
           ++ assert ((best.2 < n)%nat) by (apply Hpre; left). lia.
           ++ apply Hpre. by right.
        -- done.
Qed.

End CountingFacts.

Lemma count_dropna (s : list Cell) v : notna v = true -> count v (dropna s) = count v s.
Proof.
  intros Hv. unfold count, dropna. f_equal.
  rewrite list_filter_filter. apply list_filter_iff. intros x.
  split; [tauto|]. intros ->. done.
Qed.

Lemma elem_of_dropna (s : list Cell) v : v ∈ dropna s <-> notna v = true /\ v ∈ s.
Proof. unfold dropna. by rewrite list_elem_of_filter. Qed.

Lemma elem_of_mode (s : list Cell) v :
  v ∈ mode s <->
  notna v = true /\ v ∈ s /\ count v s = max_count (dropna s).
Proof.
  unfold mode. rewrite merge_sort_Permutation. unfold htable_mode.
  rewrite list_elem_of_filter, elem_of_unique, elem_of_dropna.
  split.
  - intros (Hc & Hn & Hv). by rewrite count_dropna in Hc.
  - intros (Hn & Hv & Hc). by rewrite count_dropna.
Qed.

(** The head of the sorted modes: a present value of highest frequency,
    and the least such value in the sort order. *)
Lemma item0_mode_least (s : list Cell) v :
  item0 (mode s) = Ok v -> least_mode s v.
Proof.
  intros H. destruct (mode s) as [|v' ms] eqn:E; [done|]. injection H as ->.
  assert (Hv : v ∈ mode s) by (rewrite E; left).
  apply elem_of_mode in Hv as (Hn & Hv & Hc).
  assert (Hsorted : StronglySorted cell_le (mode s))
    by (unfold mode; apply (StronglySorted_merge_sort cell_le)).
  rewrite E in Hsorted. apply StronglySorted_inv in Hsorted as [_ Hall].
  rewrite Forall_forall in Hall.
  split_and!; try done. intros u Hu Hnu. split.
  - rewrite Hc, <- (count_dropna s u) by done.
    apply count_le_max. by apply elem_of_dropna.
  - intros Hcu.
    assert (Hum : u ∈ mode s) by (apply elem_of_mode; split_and!; congruence).
    rewrite E in Hum. apply elem_of_cons in Hum as [->|Hum]; [|by apply Hall].
    destruct (total cell_le v v); done.
Qed.

Lemma mode_nonempty (s : list Cell) v :
  v ∈ s -> notna v = true -> exists m, item0 (mode s) = Ok m.
Proof.
  intros Hv Hn.
  destruct (max_count_attained (dropna s)) as (u & Hu & Hc).
  { intros E. assert (Hin : v ∈ dropna s) by by apply elem_of_dropna.
    rewrite E in Hin. by apply elem_of_nil in Hin. }
  apply elem_of_dropna in Hu as [Hun Hu].
  assert (Hm : u ∈ mode s).
  { apply elem_of_mode. split_and!; try done. by rewrite <- (count_dropna s u). }
  destruct (mode s) as [|m ms]; [by apply elem_of_nil in Hm|]. by exists m.
Qed.

Lemma item0_mode_empty (s : list Cell) :
  (forall v, v ∈ s -> notna v = false) -> item0 (mode s) = Raise KeyError.
Proof.
  intros H. destruct (mode s) as [|m ms] eqn:E; [done|].
  assert (Hm : m ∈ mode s) by (rewrite E; left).
  apply elem_of_mode in Hm as (Hn & Hm & _). apply H in Hm. congruence.
Qed.

Lemma groupby_size_eq keys :
  groupby_size keys =
  (fun k => (k, count k (full_keys keys))) <$> merge_sort pair_le (unique (full_keys keys)).
Proof. done. Qed.

Lemma elem_of_sorted_keys keys k :
  k ∈ merge_sort pair_le (unique (full_keys keys)) <-> k ∈ full_keys keys.
Proof. by rewrite merge_sort_Permutation, elem_of_unique. Qed.

(** The first largest group in key order: a most frequent pair, and the
    least such pair. *)
Lemma idxmax_groupby_least keys k :
  idxmax (groupby_size keys) = Ok k -> least_combo keys k.
Proof.
  rewrite groupby_size_eq.
  set (ks := full_keys keys). set (g := fun k => (k, count k ks)).
  pose proof (StronglySorted_merge_sort pair_le (unique ks)) as Hsorted.
  pose proof (elem_of_sorted_keys keys) as Hmem. fold ks in Hmem.
  destruct (merge_sort pair_le (unique ks)) as [|k0 rest]; [done|].
  cbn [fmap list_fmap idxmax]. intros [= Hk].
  destruct (argmax_from_split (g k0) (g <$> rest)) as (n & pre & post & E & Hpre & Hpost).
  rewrite Hk in E. change (g k0 :: (g <$> rest)) with (g <$> (k0 :: rest)) in E.
  apply fmap_app_inv in E as (l1 & l2 & -> & E2 & El).
  symmetry in E2. apply fmap_cons_inv in E2 as (y & l2' & Ey & -> & ->).
  unfold g in Ey. injection Ey as -> ->.
  rewrite El in Hsorted, Hmem.
  pose proof (StronglySorted_app_1_r _ l1 (y :: l2') Hsorted) as Hs2.
  apply StronglySorted_inv in Hs2 as [_ Hafter]. rewrite Forall_forall in Hafter.
  unfold least_combo. fold ks. split.
  - apply Hmem. rewrite elem_of_app, elem_of_cons. tauto.
  - intros k' Hk'. apply Hmem in Hk'.
    rewrite elem_of_app, elem_of_cons in Hk'.
    destruct Hk' as [Hin|[->|Hin]].
    + assert (Hlt : ((g k').2 < count y ks)%nat)
        by (apply Hpre, list_elem_of_fmap; eauto).
      unfold g in Hlt. cbn [snd] in Hlt. split; [lia|]. intros ?. lia.
    + split; [lia|]. intros _. destruct (total pair_le y y); done.
    + assert (Hle : ((g k').2 <= count y ks)%nat)
        by (apply Hpost, list_elem_of_fmap; eauto).
      unfold g in Hle. cbn [snd] in Hle. split; [lia|]. intros _. by apply Hafter.
Qed.

Lemma idxmax_groupby_nonempty keys k0 :
  k0 ∈ full_keys keys -> exists k, idxmax (groupby_size keys) = Ok k.
Proof.
  intros Hk. rewrite groupby_size_eq. apply elem_of_sorted_keys in Hk.
  destruct (merge_sort pair_le (unique (full_keys keys))) as [|k1 rest];
    [by apply elem_of_nil in Hk|].
  cbn. eauto.
Qed.

Lemma idxmax_groupby_empty keys :
  full_keys keys = [] -> idxmax (groupby_size keys) = Raise ValueError.
Proof. intros E. rewrite groupby_size_eq, E. done. Qed.

(** ** Time and station statistics *)
Section Stats.

Variable clock : nat -> Z.

Lemma mode0_run l c d w :
  heap w !! l = Some d -> mode0 l c w = (mode0_of d c, w).
Proof.
  intros H. unfold mode0, bind, mode0_of. rewrite (getcol_run _ _ d) by done.
  by destruct (column c d).
Qed.

Lemma mode0_Ok l c d v w :
  heap w !! l = Some d -> mode0_of d c = Ok v -> mode0 l c w = (Ok v, w).
Proof. intros H Hv. by rewrite (mode0_run _ _ d), Hv. Qed.

Lemma mode0_Raise l c d e w :
  heap w !! l = Some d -> mode0_of d c = Raise e -> mode0 l c w = (Raise e, w).
Proof. intros H Hv. by rewrite (mode0_run _ _ d), Hv. Qed.

Lemma mode0_of_least d c v :
  mode0_of d c = Ok v -> c ∈ columns d /\ least_mode (cell c <$> rows d) v.
Proof.
  unfold mode0_of, column. case_decide; [|done].
  intros Hi. split; [done|]. by apply item0_mode_least.
Qed.

Lemma mode0_of_present d c v :
  c ∈ columns d -> v ∈ (cell c <$> rows d) -> notna v = true ->
  exists m, mode0_of d c = Ok m.
Proof.
  intros Hc Hv Hn. unfold mode0_of, column. rewrite decide_True by done.
  by eapply mode_nonempty.
Qed.

Lemma mode0_of_empty d c : rows d = [] -> mode0_of d c = Raise KeyError.
Proof.
  intros E. unfold mode0_of, column. case_decide; [|done]. by rewrite E.
Qed.

Lemma time_stats_Ok l d m dd h w :
  heap w !! l = Some d ->
  mode0_of d "month" = Ok m ->
  mode0_of d "day_of_week" = Ok dd ->
  mode0_of d "hour" = Ok h ->
  time_stats clock l w =
    (Ok tt,
     emit [Text "\nCalculating Most Frequent Times of Travel...\n";
           Value "Most common month: " m;
           Value "Most common day: " dd;
           Value "Most common hour: " h;
           Elapsed (clock (S (ticks w)) - clock (ticks w));
           Text (rule 40)] 2 w).
Proof.
  intros Hd Hm Hdd Hh. unfold time_stats, took.
  step. step.
  step_by ltac:(by eapply mode0_Ok). step.
  step_by ltac:(by eapply mode0_Ok). step.
  step_by ltac:(by eapply mode0_Ok). step.
  step.
  unfold print, emit. cbn [heap stdin stdout ticks]. rewrite <- !app_assoc. done.
Qed.

Lemma time_stats_Raise l d e w :
  heap w !! l = Some d ->
  mode0_of d "month" = Raise e ->
  time_stats clock l w =
    (Raise e, emit [Text "\nCalculating Most Frequent Times of Travel...\n"] 1 w).
Proof.
  intros Hd Hm. unfold time_stats.
  step. step. by erewrite bind_Raise by (by eapply mode0_Raise).
Qed.

Lemma station_stats_Ok l d s e starts ends combo w :
  heap w !! l = Some d ->
  mode0_of d "Start Station" = Ok s ->
  mode0_of d "End Station" = Ok e ->
  column "Start Station" d = Ok starts ->
  column "End Station" d = Ok ends ->
  idxmax (groupby_size (zip starts ends)) = Ok combo ->
  station_stats clock l w =
    (Ok tt,
     emit [Text "\nCalculating Most Popular Stations and Trip...\n";
           Value "Most common start station:" s;
           Value "Most common end station:" e;
           Combo "Most common start/end combination:" combo;
           Elapsed (clock (S (ticks w)) - clock (ticks w));
           Text (rule 40)] 2 w).
Proof.
  intros Hd Hs He Hcs Hce Hi. unfold station_stats, took.
  step. step.
  step_by ltac:(by eapply mode0_Ok). step.
  step_by ltac:(by eapply mode0_Ok). step.
  step_by ltac:(by eapply getcol_Ok).
  step_by ltac:(by eapply getcol_Ok).
  rewrite Hi. step. step. step.
  unfold print, emit. cbn [heap stdin stdout ticks]. rewrite <- !app_assoc. done.
Qed.

Lemma station_stats_Raise l d e w :
  heap w !! l = Some d ->
  mode0_of d "Start Station" = Raise e ->
  station_stats clock l w =
    (Raise e, emit [Text "\nCalculating Most Popular Stations and Trip...\n"] 1 w).
Proof.
  intros Hd Hm. unfold station_stats.
  step. step. by erewrite bind_Raise by (by eapply mode0_Raise).
Qed.

End Stats.

Lemma least_mode_unique s v v' : least_mode s v -> least_mode s v' -> v = v'.
Proof.
  intros (Hn & Hv & H) (Hn' & Hv' & H').
  destruct (H v' Hv' Hn') as [L1 M1]. destruct (H' v Hv Hn) as [L2 M2].
  apply (anti_symm cell_le); [apply M1|apply M2]; lia.
Qed.

#[global] Instance pair_le_antisymm : AntiSymm (=) pair_le.
Proof.
  intros [a1 a2] [b1 b2]. unfold pair_le, pair_leb. cbn.
  destruct (decide (a1 = b1)) as [->|N].
  - rewrite decide_True by done. intros. f_equal. by apply (anti_symm cell_le).
  - rewrite (decide_False (P:=b1 = a1)) by congruence.
    intros H1 H2. destruct N. by apply (anti_symm cell_le).
Qed.

Lemma least_combo_unique keys k k' : least_combo keys k -> least_combo keys k' -> k = k'.
Proof.
  intros (Hk & H) (Hk' & H').
  destruct (H k' Hk') as [L1 M1]. destruct (H' k Hk) as [L2 M2].
  apply (anti_symm pair_le); [apply M1|apply M2]; lia.
Qed.

Lemma zip_fmap_same {A B C} (f : A -> B) (g : A -> C) (l : list A) :
  zip (f <$> l) (g <$> l) = (fun x => (f x, g x)) <$> l.
Proof. induction l as [|x l IH]; [done|]. cbn. by rewrite <- IH. Qed.

Section Modes.

Variable clock : nat -> Z.

(** C3, as the code has it.  On a table with at least one complete
    record, [time_stats] and [station_stats] print, for each column, a
    present value of highest frequency, and among the values (or the
    start/end pairs) sharing that frequency the least one in the sort
    order: the smallest number, the text first by code point, the pair
    first by start and then by end station. *)
Theorem stats_report_least_mode l d r w :
  heap w !! l = Some d ->
  r ∈ rows d ->
  (forall c : string,
     c ∈ ["month"; "day_of_week"; "hour"; "Start Station"; "End Station"]%string ->
     c ∈ columns d /\ notna (cell c r) = true) ->
  let col := fun c => cell c <$> rows d in
  exists m dd h s e combo,
    time_stats clock l w =
      (Ok tt,
       emit [Text "\nCalculating Most Frequent Times of Travel...\n";
             Value "Most common month: " m;
             Value "Most common day: " dd;
             Value "Most common hour: " h;
             Elapsed (clock (S (ticks w)) - clock (ticks w));
             Text (rule 40)] 2 w) /\
    station_stats clock l w =
      (Ok tt,
       emit [Text "\nCalculating Most Popular Stations and Trip...\n";
             Value "Most common start station:" s;
             Value "Most common end station:" e;
             Combo "Most common start/end combination:" combo;
             Elapsed (clock (S (ticks w)) - clock (ticks w));
             Text (rule 40)] 2 w) /\
    least_mode (col "month") m /\
    least_mode (col "day_of_week") dd /\
    least_mode (col "hour") h /\
    least_mode (col "Start Station") s /\
    least_mode (col "End Station") e /\
    least_combo (zip (col "Start Station") (col "End Station")) combo.
Proof.
  intros Hd Hr Hc col.
  assert (Hmode : forall c : string,
    c ∈ ["month"; "day_of_week"; "hour"; "Start Station"; "End Station"]%string ->
    exists v, mode0_of d c = Ok v /\ least_mode (col c) v).
  { intros c Hin. destruct (Hc c Hin) as [Hcol Hn].
    destruct (mode0_of_present d c (cell c r)) as [v Hv]; [done| |done|].
    - apply list_elem_of_fmap. eauto.
    - exists v. split; [done|]. by apply mode0_of_least in Hv as [_ ?]. }
  destruct (Hmode "month") as (m & Hm & Lm); [rewrite !elem_of_cons; tauto|].
  destruct (Hmode "day_of_week") as (dd & Hdd & Ldd); [rewrite !elem_of_cons; tauto|].
  destruct (Hmode "hour") as (h & Hh & Lh); [rewrite !elem_of_cons; tauto|].
  destruct (Hmode "Start Station") as (s & Hs & Ls); [rewrite !elem_of_cons; tauto|].
  destruct (Hmode "End Station") as (e & He & Le); [rewrite !elem_of_cons; tauto|].
  destruct (Hc "Start Station") as [Cs Ns]; [rewrite !elem_of_cons; tauto|].
  destruct (Hc "End Station") as [Ce Ne]; [rewrite !elem_of_cons; tauto|].
  destruct (idxmax_groupby_nonempty (zip (col "Start Station") (col "End Station"))
              (cell "Start Station" r, cell "End Station" r)) as [combo Hcombo].
  { unfold full_keys. apply list_elem_of_filter. split; [done|].
    unfold col. rewrite zip_fmap_same. apply list_elem_of_fmap. eauto. }
  exists m, dd, h, s, e, combo. split_and!; try done.
  - by eapply time_stats_Ok.
  - eapply station_stats_Ok; try done; unfold column; by rewrite decide_True.
  - by apply idxmax_groupby_least.
Qed.

End Modes.

(** ** User statistics *)

Lemma emit_emit o1 n1 o2 n2 w :
  emit o2 n2 (emit o1 n1 w) = emit (o1 ++ o2) (n2 + n1) w.
Proof. unfold emit. cbn. f_equal; [by rewrite app_assoc|lia]. Qed.

Lemma print_emit e w : print e w = (Ok tt, emit [e] 0 w).
Proof. done. Qed.

Lemma deref_run l d w : heap w !! l = Some d -> deref l w = (Ok d, w).
Proof. intros H. unfold deref. by rewrite H. Qed.

Lemma numbers_elem s zs v :
  numbers s = Some zs -> v ∈ s -> notna v = true -> exists z, v = Int z /\ z ∈ zs.
Proof.
  revert zs. induction s as [|c s IH]; intros zs Hn Hv Hp.
  - by apply elem_of_nil in Hv.
  - apply elem_of_cons in Hv. destruct c as [|z|t]; cbn in Hn; [| |done].
    + destruct Hv as [->|Hv]; [done|]. by apply IH.
    + destruct (numbers s) as [zs'|] eqn:E; [|done]. cbn in Hn. injection Hn as <-.
      destruct Hv as [->|Hv].
      * exists z. split; [done|left].
      * destruct (IH zs' eq_refl Hv Hp) as (z' & -> & Hz'). exists z'. split; [done|by right].
Qed.

Lemma numbers_present s z zs : numbers s = Some (z :: zs) -> exists z', Int z' ∈ s.
Proof.
  revert z zs. induction s as [|c s IH]; intros z zs Hn; [done|].
  destruct c as [|z0|t]; cbn in Hn; [| |done].
  - destruct (IH z zs Hn) as [z' Hz']. exists z'. by right.
  - exists z0. left.
Qed.

Section Users.

Variable clock : nat -> Z.

Lemma gender_section_absent l d w :
  heap w !! l = Some d -> ("Gender" : string) ∉ columns d ->
  gender_section l w = (Ok tt, emit [Text "Gender data not available"] 0 w).
Proof.
  intros Hd Hg. unfold gender_section.
  step_by ltac:(by eapply deref_run). by rewrite decide_False.
Qed.

Lemma gender_section_present l d w :
  heap w !! l = Some d -> ("Gender" : string) ∈ columns d ->
  gender_section l w =
    (Ok tt, emit [Table "Gender:" (value_counts (cell "Gender" <$> rows d));
                  Text (rule 40)] 0 w).
Proof.
  intros Hd Hg. unfold gender_section.
  step_by ltac:(by eapply deref_run). rewrite decide_True by done.
  step_by ltac:(eapply getcol_Ok; [done|]; unfold column; by rewrite decide_True).
  step. unfold print, emit. cbn [heap stdin stdout ticks]. by rewrite <- app_assoc.
Qed.

Lemma birth_year_section_absent l d w :
  heap w !! l = Some d -> ("Birth Year" : string) ∉ columns d ->
  birth_year_section l w = (Ok tt, emit [Text "Birth year data not available"] 0 w).
Proof.
  intros Hd Hg. unfold birth_year_section.
  step_by ltac:(by eapply deref_run). by rewrite decide_False.
Qed.

(** No year at all in the column: [int] of the NaN minimum raises. *)
Lemma birth_year_section_empty l d w :
  heap w !! l = Some d -> ("Birth Year" : string) ∈ columns d ->
  numbers (cell "Birth Year" <$> rows d) = Some [] ->
  birth_year_section l w = (Raise ValueError, emit [] 0 w).
Proof.
  intros Hd Hg Hn. unfold birth_year_section.
  step_by ltac:(by eapply deref_run). rewrite decide_True by done.
  step_by ltac:(eapply getcol_Ok; [done|]; unfold column; by rewrite decide_True).
  rewrite Hn. step. cbn [min_of int_of].
  erewrite bind_Raise by reflexivity.
  unfold emit. cbn. rewrite app_nil_r. by destruct w.
Qed.

Lemma birth_year_section_Ok l d z zs w :
  heap w !! l = Some d -> ("Birth Year" : string) ∈ columns d ->
  numbers (cell "Birth Year" <$> rows d) = Some (z :: zs) ->
  exists c,
    mode0_of d "Birth Year" = Ok (Int c) /\
    birth_year_section l w =
      (Ok tt, emit [Text "Birth year stats"; Text (rule 20);
                    Value "Earliest: " (Int (foldr Z.min z zs));
                    Value "Most recent: " (Int (foldr Z.max z zs));
                    Value "Most common: " (Int c)] 0 w).
Proof.
  intros Hd Hg Hn.
  destruct (numbers_present _ _ _ Hn) as [z' Hz'].
  destruct (mode0_of_present d "Birth Year" (Int z')) as [v Hv]; [done..|].
  pose proof (mode0_of_least _ _ _ Hv) as [_ (Hvn & Hvin & _)].
  destruct (numbers_elem _ _ _ Hn Hvin Hvn) as (c & -> & _).
  exists c. split; [done|]. unfold birth_year_section.
  step_by ltac:(by eapply deref_run). rewrite decide_True by done.
  step_by ltac:(eapply getcol_Ok; [done|]; unfold column; by rewrite decide_True).
  rewrite Hn. step. cbn [min_of int_of]. step.
  step_by ltac:(eapply getcol_Ok; [done|]; unfold column; by rewrite decide_True).
  rewrite Hn. step. cbn [max_of int_of]. step.
  step_by ltac:(by eapply mode0_Ok). cbn [int_of_cell]. step.
  do 4 step.
  unfold print, emit. cbn [heap stdin stdout ticks]. rewrite <- !app_assoc. done.
Qed.

(** The frame of [user_stats] around its two optional sections. *)
Lemma user_stats_Ok l d ut og ob w :
  heap w !! l = Some d ->
  column "User Type" d = Ok ut ->
  (forall w', heap w' = heap w -> gender_section l w' = (Ok tt, emit og 0 w')) ->
  (forall w', heap w' = heap w -> birth_year_section l w' = (Ok tt, emit ob 0 w')) ->
  user_stats clock l w =
    (Ok tt,
     emit ([Text "\nCalculating User Stats...\n";
            Table "User types:" (value_counts ut); Text (rule 40)]
           ++ og ++ ob ++
           [Text (rule 40); Elapsed (clock (S (ticks w)) - clock (ticks w));
            Text (rule 40)]) 2 w).
Proof.
  intros Hd Hu Hg Hb. unfold user_stats, took.
  step. step. step_by ltac:(by eapply getcol_Ok). step. step.
  step_by ltac:(by apply Hg). step_by ltac:(by apply Hb).
  step. step.
  unfold print, emit. cbn [heap stdin stdout ticks].
  rewrite <- !app_assoc. done.
Qed.

Lemma user_stats_Raise l d ut og e ob w :
  heap w !! l = Some d ->
  column "User Type" d = Ok ut ->
  (forall w', heap w' = heap w -> gender_section l w' = (Ok tt, emit og 0 w')) ->
  (forall w', heap w' = heap w -> birth_year_section l w' = (Raise e, emit ob 0 w')) ->
  user_stats clock l w =
    (Raise e,
     emit ([Text "\nCalculating User Stats...\n";
            Table "User types:" (value_counts ut); Text (rule 40)]
           ++ og ++ ob) 1 w).
Proof.
  intros Hd Hu Hg Hb. unfold user_stats, took.
  step. step. step_by ltac:(by eapply getcol_Ok). step. step.
  step_by ltac:(by apply Hg).
  erewrite bind_Raise by (by apply Hb).
  unfold emit. cbn [heap stdin stdout ticks].
  rewrite <- !app_assoc. done.
Qed.

End Users.

Lemma bind_Stuck {A B} (m : M A) (k : A -> M B) w w' :
  m w = (Stuck, w') -> bind m k w = (Stuck, w').
Proof. intros H. unfold bind. by rewrite H. Qed.

Lemma printed_emit {A} (m : M A) r o n w : m w = (r, emit o n w) -> printed m w = o.
Proof.
  intros H. unfold printed. rewrite H. cbn. by rewrite drop_app_length.
Qed.

Lemma elem_of_value_counts s v n :
  (v, n) ∈ value_counts s <-> notna v = true /\ v ∈ s /\ n = count v s.
Proof.
  unfold value_counts. rewrite merge_sort_Permutation, list_elem_of_fmap.
  split.
  - intros (u & [= -> ->] & Hu). apply elem_of_unique, elem_of_dropna in Hu as [Hn Hu].
    by rewrite count_dropna.
  - intros (Hn & Hv & ->). exists v. rewrite count_dropna by done.
    split; [done|]. by apply elem_of_unique, elem_of_dropna.
Qed.

Ltac not_printed :=
  let H := fresh "Hin" in
  intros H;
  repeat first
    [ apply elem_of_app in H as [H|H]
    | apply elem_of_cons in H as [H|H]
    | apply elem_of_nil in H; destruct H
    | unfold rule in H; cbn in H; discriminate H ].

Section UsersAny.

Variable clock : nat -> Z.

Lemma birth_year_section_any l d w :
  heap w !! l = Some d ->
  exists r ob,
    (forall w', heap w' = heap w -> birth_year_section l w' = (r, emit ob 0 w')) /\
    Text "Gender data not available" ∉ ob.
Proof.
  intros Hd.
  destruct (decide (("Birth Year" : string) ∈ columns d)) as [Hb|Hb].
  - destruct (numbers (cell "Birth Year" <$> rows d)) as [[|z zs]|] eqn:Hn.
    + exists (Raise ValueError), []. split; [|not_printed].
      intros w' Hw. eapply birth_year_section_empty; [by rewrite Hw|done..].
    + destruct (birth_year_section_Ok l d z zs w Hd Hb Hn) as (c & Hc & _).
      eexists (Ok tt), _. split.
      * intros w' Hw.
        destruct (birth_year_section_Ok l d z zs w') as (c' & Hc' & Hrun);
          [by rewrite Hw|done..|].
        rewrite Hc in Hc'. injection Hc' as <-. exact Hrun.
      * not_printed.
    + exists Stuck, []. split; [|not_printed].
      intros w' Hw. unfold birth_year_section.
      step_by ltac:(eapply deref_run; by rewrite Hw). rewrite decide_True by done.
      step_by ltac:(eapply getcol_Ok; [by rewrite Hw|]; unfold column; by rewrite decide_True).
      rewrite Hn. erewrite bind_Stuck by reflexivity.
      unfold emit. cbn. rewrite app_nil_r. by destruct w'.
  - exists (Ok tt), [Text "Birth year data not available"]. split; [|not_printed].
    intros w' Hw. eapply birth_year_section_absent; [by rewrite Hw|done].
Qed.

Lemma user_stats_prefix l d ut og w :
  heap w !! l = Some d ->
  column "User Type" d = Ok ut ->
  (forall w', heap w' = heap w -> gender_section l w' = (Ok tt, emit og 0 w')) ->
  exists post,
    printed (user_stats clock l) w =
      [Text "\nCalculating User Stats...\n";
       Table "User types:" (value_counts ut); Text (rule 40)] ++ og ++ post /\
    Text "Gender data not available" ∉ post.
Proof.
  intros Hd Hu Hg.
  destruct (birth_year_section_any l d w Hd) as (r & ob & Hb & Hnot).
  destruct r as [[]|e|].
  - eexists. split.
    + eapply printed_emit. by eapply user_stats_Ok.
    + not_printed. by apply Hnot.
  - exists ob. split; [|done].
    eapply printed_emit. by eapply user_stats_Raise.
  - exists ob. split; [|done].
    eapply (printed_emit _ Stuck _ 1%nat). unfold user_stats.
    step. step. step_by ltac:(by eapply getcol_Ok). step. step.
    step_by ltac:(by apply Hg).
    erewrite bind_Stuck by (by apply Hb).
    unfold emit. cbn [heap stdin stdout ticks]. rewrite <- !app_assoc. done.
Qed.

(** C6, as the code has it.  On a table with a User Type column and no
    Gender column [user_stats] prints "Gender data not available" after the
    user-type counts, and the missing column raises nothing: the call
    returns normally whenever the Birth Year column is absent too or holds
    at least one year.  With a Gender column it prints the frequency of
    each present gender value instead. *)
Theorem user_stats_gender l d ut w :
  heap w !! l = Some d ->
  column "User Type" d = Ok ut ->
  (("Gender" : string) ∉ columns d ->
     (exists post,
        printed (user_stats clock l) w =
          [Text "\nCalculating User Stats...\n";
           Table "User types:" (value_counts ut); Text (rule 40);
           Text "Gender data not available"] ++ post) /\
     ((("Birth Year" : string) ∉ columns d \/
       exists z zs, numbers (cell "Birth Year" <$> rows d) = Some (z :: zs)) ->
      (user_stats clock l w).1 = Ok tt)) /\
  (("Gender" : string) ∈ columns d ->
     let gender := cell "Gender" <$> rows d in
     (exists post,
        printed (user_stats clock l) w =
          [Text "\nCalculating User Stats...\n";
           Table "User types:" (value_counts ut); Text (rule 40);
           Table "Gender:" (value_counts gender); Text (rule 40)] ++ post) /\
     (forall v n, (v, n) ∈ value_counts gender <->
                  notna v = true /\ v ∈ gender /\ n = count v gender) /\
     Text "Gender data not available" ∉ printed (user_stats clock l) w).
Proof.
  intros Hd Hu. split.
  - intros Hg.
    assert (Hgs : forall w', heap w' = heap w ->
              gender_section l w' = (Ok tt, emit [Text "Gender data not available"] 0 w')).
    { intros w' Hw. eapply gender_section_absent; [by rewrite Hw|done]. }
    split.
    + destruct (user_stats_prefix l d ut _ w Hd Hu Hgs) as (post & Hp & _).
      exists post. by rewrite Hp.
    + intros [Hb|(z & zs & Hn)].
      * erewrite user_stats_Ok; [done..|].
        intros w' Hw. eapply birth_year_section_absent; [by rewrite Hw|done].
      * destruct (decide (("Birth Year" : string) ∈ columns d)) as [Hb|Hb].
        -- destruct (birth_year_section_Ok l d z zs w Hd Hb Hn) as (c & Hc & _).
           erewrite user_stats_Ok; [done..|].
           intros w' Hw.
           destruct (birth_year_section_Ok l d z zs w') as (c' & Hc' & Hrun);
             [by rewrite Hw|done..|].
           rewrite Hc in Hc'. injection Hc' as <-. exact Hrun.
        -- erewrite user_stats_Ok; [done..|].
           intros w' Hw. eapply birth_year_section_absent; [by rewrite Hw|done].
  - intros Hg gender.
    assert (Hgs : forall w', heap w' = heap w ->
              gender_section l w' =
                (Ok tt, emit [Table "Gender:" (value_counts gender); Text (rule 40)] 0 w')).
    { intros w' Hw. eapply gender_section_present; [by rewrite Hw|done]. }
    destruct (user_stats_prefix l d ut _ w Hd Hu Hgs) as (post & Hp & Hnot).
    split_and!.
    + exists post. by rewrite Hp.
    + intros v n. apply elem_of_value_counts.
    + rewrite Hp. not_printed. by apply Hnot.
Qed.

End UsersAny.

(** ** Statistics on an empty selection *)

Lemma elem_of_add_column_iff (c c' : string) cols :
  c ∈ add_column c' cols <-> c = c' \/ c ∈ cols.
Proof.
  unfold add_column. case_decide as Hc.
  - split; [tauto|]. intros [->|?]; done.
  - rewrite elem_of_app, elem_of_cons, elem_of_nil. tauto.
Qed.

Lemma derived_columns_other lower f ts (c : string) :
  c ∉ ["month"; "day_of_week"; "hour"]%string ->
  c ∈ columns (derived lower f ts) <-> c ∈ header f.
Proof.
  intros Hn. cbn [derived columns]. rewrite !elem_of_add_column_iff.
  rewrite !elem_of_cons in Hn. tauto.
Qed.

Lemma filter_filter_nil {A} (P Q : A -> Prop)
    `{!forall x, Decision (P x)} `{!forall x, Decision (Q x)} (l : list A) :
  (forall x, x ∈ l -> ~ (P x /\ Q x)) -> filter Q (filter P l) = [].
Proof.
  intros Hno. induction l as [|x l IH]; [done|].
  rewrite filter_cons. case_decide as HP.
  - rewrite filter_cons. case_decide as HQ.
    + destruct (Hno x); [left|done].
    + apply IH. intros y Hy. apply Hno. by right.
  - apply IH. intros y Hy. apply Hno. by right.
Qed.

(** C5, as the code has it.  When no loaded record passes the two
    selectors [load_data] returns a table without rows.  On it
    [time_stats] and [station_stats] raise [KeyError] having printed only
    their heading.  [user_stats] prints an empty user-type table and the
    gender section; it then raises [ValueError] when the file has a Birth
    Year column, and otherwise returns normally. *)
Theorem empty_selection_stats lower to_datetime files clock city path f ts month day w :
  (city, path) ∈ CITY_DATA ->
  files path = Some f ->
  ("Start Time" : string) ∈ header f ->
  to_datetime (cell "Start Time" <$> rows (frame_of_csv f)) = Ok ts ->
  length ts = length (records f) ->
  (forall r, r ∈ rows (derived lower f ts) ->
     ~ (passes "month" month r /\ passes "day_of_week" day r)) ->
  exists l w' out,
    load_data lower to_datetime files city month day w = (Ok l, w') /\
    heap w' !! l = Some out /\
    length (rows out) = 0%nat /\
    time_stats clock l w' =
      (Raise KeyError,
       emit [Text "\nCalculating Most Frequent Times of Travel...\n"] 1 w') /\
    station_stats clock l w' =
      (Raise KeyError,
       emit [Text "\nCalculating Most Popular Stations and Trip...\n"] 1 w') /\
    (("User Type" : string) ∈ header f ->
     let og := if decide (("Gender" : string) ∈ header f)
               then [Table "Gender:" []; Text (rule 40)]
               else [Text "Gender data not available"] in
     if decide (("Birth Year" : string) ∈ header f)
     then user_stats clock l w' =
            (Raise ValueError,
             emit ([Text "\nCalculating User Stats...\n";
                    Table "User types:" []; Text (rule 40)] ++ og) 1 w')
     else user_stats clock l w' =
            (Ok tt,
             emit ([Text "\nCalculating User Stats...\n";
                    Table "User types:" []; Text (rule 40)] ++ og ++
                   [Text "Birth year data not available"; Text (rule 40);
                    Elapsed (clock (S (ticks w')) - clock (ticks w'));
                    Text (rule 40)]) 2 w')).
Proof.
  intros Hc Hf Hs Ht Hl Hno.
  destruct (load_data_run lower to_datetime files city path f ts month day w
              Hc Hf Hs Ht Hl) as (l & w' & Hrun & _ & Hout & _).
  rewrite (filter_filter_nil _ _ _ Hno) in Hout.
  set (out := {| columns := columns (derived lower f ts); rows := [] |}) in *.
  assert (Hcol : forall c : string,
            c ∉ ["month"; "day_of_week"; "hour"]%string ->
            c ∈ columns out <-> c ∈ header f).
  { intros c Hn. by apply derived_columns_other. }
  exists l, w', out. split_and!; try done.
  - eapply time_stats_Raise; [done|]. by apply mode0_of_empty.
  - eapply station_stats_Raise; [done|]. by apply mode0_of_empty.
  - intros Hu og.
    assert (Hut : column "User Type" out = Ok []).
    { unfold column. rewrite decide_True; [done|].
      apply Hcol; [|done]. rewrite !elem_of_cons, elem_of_nil.
      intros [?|[?|[?|[]]]]; discriminate. }
    assert (Hg : forall w0, heap w0 = heap w' ->
              gender_section l w0 = (Ok tt, emit og 0 w0)).
    { intros w0 Hw. subst og. case_decide as Hg.
      - rewrite (gender_section_present l out w0); [done|by rewrite Hw|].
        apply Hcol; [|done]. rewrite !elem_of_cons, elem_of_nil.
        intros [?|[?|[?|[]]]]; discriminate.
      - eapply gender_section_absent; [by rewrite Hw|].
        intros Hin. apply Hg, Hcol; [|done]. rewrite !elem_of_cons, elem_of_nil.
        intros [?|[?|[?|[]]]]; discriminate. }
    case_decide as Hb.
    + replace og with (og ++ []) at 1 by apply app_nil_r.
      eapply (user_stats_Raise clock l out [] og ValueError []); [done..|].
      intros w0 Hw. eapply birth_year_section_empty; [by rewrite Hw| |done].
      apply Hcol; [|done]. rewrite !elem_of_cons, elem_of_nil.
      intros [?|[?|[?|[]]]]; discriminate.
    + eapply (user_stats_Ok clock l out [] og [Text "Birth year data not available"]);
        [done..|].
      intros w0 Hw. eapply birth_year_section_absent; [by rewrite Hw|].
      intros Hin. apply Hb, Hcol; [|done]. rewrite !elem_of_cons, elem_of_nil.
      intros [?|[?|[?|[]]]]; discriminate.
Qed.

(** ** The prompts *)
Section Prompts.

Variable lower : string -> string.

Lemma while_not_in_run valid msg e rest pre v w :
  stdin w = pre ++ e :: rest ->
  v ∉ valid ->
  Forall (fun x => lower x ∉ valid) pre ->
  lower e ∈ valid ->
  while_not_in lower valid msg (stdin w) v w =
    (Ok (lower e),
     {| heap := heap w; stdin := rest;
        stdout := stdout w ++ replicate (S (length pre)) (Prompt msg);
        ticks := ticks w |}).
Proof.
  revert v w. induction pre as [|x pre IH]; intros v w Hin Hv Hpre He.
  - rewrite Hin. cbn [while_not_in app]. rewrite decide_False by done.
    unfold bind, input. rewrite Hin. cbn [app].
    destruct rest; cbn [while_not_in]; by rewrite decide_True.
  - rewrite Hin. cbn [while_not_in app]. rewrite decide_False by done.
    unfold bind at 1. unfold input at 1. rewrite Hin. cbn [app].
    apply Forall_cons in Hpre as [Hx Hpre].
    pose proof (IH (lower x)
                  {| heap := heap w; stdin := pre ++ e :: rest;
                     stdout := stdout w ++ [Prompt msg]; ticks := ticks w |}
                  eq_refl Hx Hpre He) as IHw.
    cbn [heap stdin stdout ticks] in IHw. rewrite IHw.
    cbn [length replicate]. by rewrite <- app_assoc.
Qed.

Lemma ask_run first again valid e rest pre w :
  stdin w = pre ++ e :: rest ->
  Forall (fun x => lower x ∉ valid) pre ->
  lower e ∈ valid ->
  ask lower first again valid w =
    (Ok (lower e),
     {| heap := heap w; stdin := rest;
        stdout := stdout w ++ Prompt first :: replicate (length pre) (Prompt again);
        ticks := ticks w |}).
Proof.
  intros Hin Hpre He. unfold ask, bind. unfold input at 1. rewrite Hin.
  destruct pre as [|x pre]; cbn [app heap stdin stdout ticks].
  - destruct rest; cbn [while_not_in]; by rewrite decide_True.
  - apply Forall_cons in Hpre as [Hx Hpre].
    pose proof (while_not_in_run valid again e rest pre (lower x)
                  {| heap := heap w; stdin := pre ++ e :: rest;
                     stdout := stdout w ++ [Prompt first]; ticks := ticks w |}
                  eq_refl Hx Hpre He) as Hw.
    cbn [heap stdin stdout ticks] in Hw. rewrite Hw.
    cbn [length]. by rewrite <- app_assoc.
Qed.

Lemma while_not_in_valid valid msg ins v w r w' :
  while_not_in lower valid msg ins v w = (Ok r, w') -> r ∈ valid.
Proof.
  revert v w. induction ins as [|x ins IH]; intros v w; cbn [while_not_in].
  - case_decide; [by intros [= <- _]|].
    unfold bind, input. by destruct (stdin w).
  - case_decide; [by intros [= <- _]|].
    unfold bind, input. destruct (stdin w); [done|]. apply IH.
Qed.

Lemma ask_valid first again valid w r w' :
  ask lower first again valid w = (Ok r, w') -> r ∈ valid.
Proof.
  unfold ask, bind, input. destruct (stdin w); [done|].
  apply while_not_in_valid.
Qed.

(** C7, as the code has it.  The prompt loop accepts as month exactly
    "all" and the six names january to june, and as day "all" and the seven
    weekday names: every line whose lower-cased form is outside the list is
    answered by the re-prompt, the first line inside it is returned
    lower-cased, and nothing outside the lists is ever returned. *)
Theorem get_filters_vocabulary :
  (forall w c m d w',
     get_filters lower w = (Ok (c, m, d), w') ->
     m ∈ ["all"; "january"; "february"; "march"; "april"; "may"; "june"]%string /\
     d ∈ ["all"; "monday"; "tuesday"; "wednesday"; "thursday"; "friday";
          "saturday"; "sunday"]%string) /\
  (forall cs c ms m ds d rest w,
     stdin w = cs ++ c :: ms ++ m :: ds ++ d :: rest ->
     Forall (fun x => lower x ∉ ["chicago"; "new york city"; "washington"]%string) cs ->
     lower c ∈ ["chicago"; "new york city"; "washington"]%string ->
     Forall (fun x => lower x ∉
       ["all"; "january"; "february"; "march"; "april"; "may"; "june"]%string) ms ->
     lower m ∈ ["all"; "january"; "february"; "march"; "april"; "may"; "june"]%string ->
     Forall (fun x => lower x ∉
       ["all"; "monday"; "tuesday"; "wednesday"; "thursday"; "friday";
        "saturday"; "sunday"]%string) ds ->
     lower d ∈ ["all"; "monday"; "tuesday"; "wednesday"; "thursday"; "friday";
                "saturday"; "sunday"]%string ->
     get_filters lower w =
       (Ok (lower c, lower m, lower d),
        {| heap := heap w; stdin := rest;
           stdout := stdout w ++
             [Text "Hello! Let's explore some US bikeshare data!"] ++
             Prompt "Enter city name (chicago, new york city, washington): "
               :: replicate (length cs)
                    (Prompt "Invalid city: type one of (chicago, new york city, washington)") ++
             Prompt "Enter month name (all, january, february, ... , june): "
               :: replicate (length ms)
                    (Prompt "Invalid month: type one of (all, january, february, ... , june)") ++
             Prompt "Enter day of week (all, monday, tuesday, ... , sunday): "
               :: replicate (length ds)
                    (Prompt "Invalid day: type one of (all, monday, tuesday, ... , sunday)") ++
             [Text (rule 40)];
           ticks := ticks w |})).
Proof.
  split.
  - intros w c m d w'. unfold get_filters.
    unfold bind at 1. cbn [print].
    unfold bind at 1. destruct (ask _ _ _ _ _) as [[c0| |] w1]; [|done..].
    unfold bind at 1. destruct (ask _ _ _ _ w1) as [[m0| |] w2] eqn:Em; [|done..].
    unfold bind at 1. destruct (ask _ _ _ _ w2) as [[d0| |] w3] eqn:Ed; [|done..].
    unfold bind, print, ret. intros [= <- <- <- _].
    apply ask_valid in Em, Ed. done.
  - intros cs c ms m ds d rest w Hin Hcs Hc Hms Hm Hds Hd.
    unfold get_filters. step.
    step_by ltac:(eapply (ask_run _ _ _ c _ cs); [exact Hin|done..]).
    step_by ltac:(eapply (ask_run _ _ _ m _ ms); [reflexivity|done..]).
    step_by ltac:(eapply (ask_run _ _ _ d _ ds); [reflexivity|done..]).
    step. unfold ret. do 2 f_equal.
    rewrite <- !app_assoc. cbn [app]. rewrite <- ?app_assoc. done.
Qed.

End Prompts.

(** ** Running the statistics twice *)

Lemma emit_nil w : emit [] 0 w = w.
Proof. unfold emit. cbn. rewrite app_nil_r. by destruct w. Qed.

Lemma agree_ret {A} (R : A -> A -> Prop) a b : R a b -> agree R (ret a) (ret b).
Proof.
  intros HR w1 w2 _. exists (Ok a), (Ok b), [], [], 0%nat, 0%nat.
  by rewrite !emit_nil.
Qed.

Lemma agree_lift {A} (r : Res A) : agree eq (lift r) (lift r).
Proof.
  intros w1 w2 _. exists r, r, [], [], 0%nat, 0%nat.
  rewrite !emit_nil. split_and!; try done. by destruct r.
Qed.

Lemma agree_of_option {A} (o : option A) : agree eq (of_option o) (of_option o).
Proof. destruct o; [by apply agree_ret|apply agree_lift]. Qed.

Lemma agree_print e1 e2 : blank e1 = blank e2 -> agree eq (print e1) (print e2).
Proof.
  intros He w1 w2 _. exists (Ok tt), (Ok tt), [e1], [e2], 0%nat, 0%nat.
  split_and!; try done. cbn. by rewrite He.
Qed.

Lemma agree_time c1 c2 : agree (fun _ _ => True) (time_time c1) (time_time c2).
Proof.
  intros w1 w2 _. eexists (Ok _), (Ok _), [], [], 1%nat, 1%nat.
  unfold time_time, emit. cbn. by rewrite !app_nil_r.
Qed.

Lemma agree_deref l : agree eq (deref l) (deref l).
Proof.
  intros w1 w2 Hw. unfold deref. rewrite Hw.
  by apply agree_of_option.
Qed.

Lemma agree_bind {A B} (R : A -> A -> Prop) (S : B -> B -> Prop) m1 m2 k1 k2 :
  agree R m1 m2 ->
  (forall a b, R a b -> agree S (k1 a) (k2 b)) ->
  agree S (bind m1 k1) (bind m2 k2).
Proof.
  intros Hm Hk w1 w2 Hw.
  destruct (Hm w1 w2 Hw) as (r1 & r2 & o1 & o2 & n1 & n2 & E1 & E2 & Ho & Hr).
  unfold bind. rewrite E1, E2.
  destruct r1 as [a| |], r2 as [b| |]; cbn in Hr; try done.
  - destruct (Hk a b Hr (emit o1 n1 w1) (emit o2 n2 w2) Hw)
      as (s1 & s2 & p1 & p2 & k1' & k2' & F1 & F2 & Hp & Hs).
    exists s1, s2, (o1 ++ p1), (o2 ++ p2), (k1' + n1)%nat, (k2' + n2)%nat.
    rewrite F1, F2, !emit_emit, !fmap_app, Ho, Hp. done.
  - subst. by exists (Raise e0), (Raise e0), o1, o2, n1, n2.
  - by exists Stuck, Stuck, o1, o2, n1, n2.
Qed.

Lemma agree_bind_eq {A B} (S : B -> B -> Prop) (m1 m2 : M A) k1 k2 :
  agree eq m1 m2 ->
  (forall a, agree S (k1 a) (k2 a)) ->
  agree S (bind m1 k1) (bind m2 k2).
Proof. intros Hm Hk. eapply agree_bind; [done|]. by intros a b <-. Qed.

Lemma agree_getcol l c : agree eq (getcol l c) (getcol l c).
Proof.
  unfold getcol. eapply agree_bind_eq; [apply agree_deref|].
  intros d. apply agree_lift.
Qed.

Lemma agree_mode0 l c : agree eq (mode0 l c) (mode0 l c).
Proof.
  unfold mode0. eapply agree_bind_eq; [apply agree_getcol|].
  intros s. apply agree_lift.
Qed.

Lemma agree_took c1 c2 t1 t2 : agree eq (took c1 t1) (took c2 t2).
Proof.
  unfold took. eapply agree_bind; [apply agree_time|].
  intros a b _. by apply agree_print.
Qed.

Ltac agree_step :=
  first
    [ apply agree_lift
    | apply agree_of_option
    | apply agree_took
    | apply agree_mode0
    | apply agree_getcol
    | apply agree_deref
    | apply agree_print; reflexivity
    | apply agree_ret; reflexivity
    | eapply agree_bind; [apply agree_time | intros ? ? _]
    | eapply agree_bind_eq; [ | intros ? ] ].

Lemma agree_time_stats c1 c2 l : agree eq (time_stats c1 l) (time_stats c2 l).
Proof. unfold time_stats. repeat agree_step. Qed.

Lemma agree_station_stats c1 c2 l : agree eq (station_stats c1 l) (station_stats c2 l).
Proof. unfold station_stats. repeat agree_step. Qed.

Lemma agree_int_of o : agree eq (int_of o) (int_of o).
Proof. destruct o; [by apply agree_ret|apply agree_lift]. Qed.

Lemma agree_int_of_cell c : agree eq (int_of_cell c) (int_of_cell c).
Proof. destruct c; [apply agree_lift|by apply agree_ret|apply agree_lift]. Qed.

Lemma agree_gender_section l : agree eq (gender_section l) (gender_section l).
Proof.
  unfold gender_section. eapply agree_bind_eq; [apply agree_deref|].
  intros d. case_decide; repeat agree_step.
Qed.

Lemma agree_birth_year_section l :
  agree eq (birth_year_section l) (birth_year_section l).
Proof.
  unfold birth_year_section. eapply agree_bind_eq; [apply agree_deref|].
  intros d. case_decide; repeat first [apply agree_int_of | apply agree_int_of_cell | agree_step].
Qed.

Lemma agree_user_stats c1 c2 l : agree eq (user_stats c1 l) (user_stats c2 l).
Proof.
  unfold user_stats.
  repeat first [apply agree_gender_section | apply agree_birth_year_section | agree_step].
Qed.

Lemma agree_twice (f : M unit) w :
  agree eq f f ->
  heap (f w).2 = heap w /\
  (f (f w).2).1 = (f w).1 /\
  blank <$> printed f (f w).2 = blank <$> printed f w.
Proof.
  intros Hf.
  destruct (Hf w w eq_refl) as (r & _ & o & _ & n & _ & E & _).
  rewrite E. cbn [fst snd].
  destruct (Hf w (emit o n w) eq_refl) as (r1 & r2 & o1 & o2 & n1 & n2 & E1 & E2 & Ho & Hr).
  rewrite E in E1.
  assert (r1 = r) as -> by congruence.
  assert (o1 = o) as ->.
  { apply (f_equal (fun p => drop (length (stdout w)) (stdout p.2))) in E1.
    cbn in E1. by rewrite !drop_app_length in E1. }
  split_and!.
  - done.
  - rewrite E2. cbn. destruct r as [[]| |], r2 as [[]| |]; cbn in Hr; by subst.
  - rewrite (printed_emit _ _ _ _ _ E2), (printed_emit _ _ _ _ _ E). done.
Qed.

(** C8, as the code has it.  Running [time_stats], [station_stats] or
    [user_stats] a second time on the same table gives the same outcome
    and prints the same lines as the first run, apart from the figure in
    the elapsed-time line; the store is left as it was. *)
Theorem stats_repeatable clock l w :
  (let f := time_stats clock l in
   heap (f w).2 = heap w /\
   (f (f w).2).1 = (f w).1 /\
   blank <$> printed f (f w).2 = blank <$> printed f w) /\
  (let f := station_stats clock l in
   heap (f w).2 = heap w /\
   (f (f w).2).1 = (f w).1 /\
   blank <$> printed f (f w).2 = blank <$> printed f w) /\
  (let f := user_stats clock l in
   heap (f w).2 = heap w /\
   (f (f w).2).1 = (f w).1 /\
   blank <$> printed f (f w).2 = blank <$> printed f w).
Proof.
  split_and!.
  - apply agree_twice, agree_time_stats.
  - apply agree_twice, agree_station_stats.
  - apply agree_twice, agree_user_stats.
Qed.

(** C4, as the code has it.  On a table whose three trip durations are
    100, 200 and 4000000 seconds [trip_duration_stats] prints the total
    4000300 s as 46d 7h 11m 40s and the mean, the double nearest to
    4000300/3 (about 1333433.33 s), as 15d 10h 23m 53s: the mean's
    remaining 53.33 seconds are cut to 53 by [int]. *)
Theorem durations_scenario clock l d w :
  heap w !! l = Some d ->
  column "Trip Duration" d = Ok [Int 100; Int 200; Int 4000000] ->
  Int64.sum [100; 200; 4000000] = 4000300 /\
  Float64.mean [100; 200; 4000000] = S754_finite false 5727052558062933 (-32) /\
  1333433 * 2 ^ 32 < 5727052558062933 < 1333434 * 2 ^ 32 /\
  Float64.remainder (Float64.mean [100; 200; 4000000]) (Float64.of_Z 60)
    = S754_finite false 7505999378939904 (-47) /\
  53 * 2 ^ 47 < 7505999378939904 < 54 * 2 ^ 47 /\
  trip_duration_stats clock l w =
    (Ok tt,
     emit [Text "\nCalculating Trip Duration...\n";
           Span "Total" 46 7 11 40;
           Span "Mean" 15 10 23 53;
           Elapsed (clock (S (ticks w)) - clock (ticks w));
           Text (rule 40)] 2 w).
Proof.
  intros Hd Hc. split_and!.
  - by vm_compute.
  - by vm_compute.
  - lia.
  - lia.
  - by vm_compute.
  - lia.
  - lia.
  - rewrite (trip_duration_stats_run clock l d _ [100; 200; 4000000] 15 10 23 53 w Hd Hc);
      [done|by vm_compute..].
Qed.

(** * The theorems at concrete inputs *)

Import Fixture.

Ltac closed :=
  first [ vm_compute; reflexivity
        | apply (bool_decide_unpack _); vm_compute; exact I
        | lia ].

(** The Washington file loads in the concrete setting. *)
Lemma washington_loads :
  (("washington"%string, "washington.csv"%string) ∈ CITY_DATA) /\
  files "washington.csv" = Some washington_csv /\
  ("Start Time" : string) ∈ header washington_csv /\
  to_datetime (cell "Start Time" <$> rows (frame_of_csv washington_csv))
    = Ok (times_of washington_csv) /\
  length (times_of washington_csv) = length (records washington_csv).
Proof. split_and!; closed. Defined.

Lemma load_data_filters_witness :
  ((("washington"%string, "washington.csv"%string) ∈ CITY_DATA) /\
   files "washington.csv" = Some washington_csv /\
   ("Start Time" : string) ∈ header washington_csv /\
   to_datetime (cell "Start Time" <$> rows (frame_of_csv washington_csv))
     = Ok (times_of washington_csv) /\
   length (times_of washington_csv) = length (records washington_csv)) /\
  exists l w' out,
    load "washington" "january" "all" (world []) = (Ok l, w') /\
    heap w' !! l = Some out /\
    (forall r, r ∈ rows out -> "january"%string ≠ "all"%string ->
               cell "month" r = Str "january") /\
    (forall r, r ∈ rows out -> "all"%string ≠ "all"%string ->
               cell "day_of_week" r = Str "all") /\
    ("january"%string = "all"%string ->
       rows out = filter (passes "day_of_week" "all")
                    (rows (derived lower_ascii washington_csv (times_of washington_csv)))) /\
    ("all"%string = "all"%string ->
       rows out = filter (passes "month" "january")
                    (rows (derived lower_ascii washington_csv (times_of washington_csv)))) /\
    (forall r, r ∈ rows out <->
       r ∈ rows (derived lower_ascii washington_csv (times_of washington_csv)) /\
       ("january"%string ≠ "all"%string -> cell "month" r = Str "january") /\
       ("all"%string ≠ "all"%string -> cell "day_of_week" r = Str "all")).
Proof.
  split; [exact washington_loads|].
  destruct washington_loads as (H1 & H2 & H3 & H4 & H5).
  exact (load_data_filters lower_ascii to_datetime files "washington" "washington.csv"
           washington_csv (times_of washington_csv) "january" "all" (world [])
           H1 H2 H3 H4 H5).
Defined.

Lemma load_data_source_unchanged_witness :
  ((("washington"%string, "washington.csv"%string) ∈ CITY_DATA) /\
   files "washington.csv" = Some washington_csv /\
   ("Start Time" : string) ∈ header washington_csv /\
   to_datetime (cell "Start Time" <$> rows (frame_of_csv washington_csv))
     = Ok (times_of washington_csv) /\
   length (times_of washington_csv) = length (records washington_csv)) /\
  exists src w0 l w',
    read_and_derive lower_ascii to_datetime files "washington" (world []) = (Ok src, w0) /\
    heap w0 !! src = Some (derived lower_ascii washington_csv (times_of washington_csv)) /\
    apply_filters src "february" "monday" w0 = (Ok l, w') /\
    load "washington" "february" "monday" (world []) = (Ok l, w') /\
    heap w' !! src = Some (derived lower_ascii washington_csv (times_of washington_csv)) /\
    (forall k d, heap w0 !! k = Some d -> heap w' !! k = Some d) /\
    ("february"%string ≠ "all"%string ∨ "monday"%string ≠ "all"%string ->
       l ≠ src /\ heap w0 !! l = None) /\
    ("february"%string = "all"%string -> "monday"%string = "all"%string -> l = src).
Proof.
  split; [exact washington_loads|].
  destruct washington_loads as (H1 & H2 & H3 & H4 & H5).
  exact (load_data_source_unchanged lower_ascii to_datetime files "washington"
           "washington.csv" washington_csv (times_of washington_csv)
           "february" "monday" (world []) H1 H2 H3 H4 H5).
Defined.

Lemma load_data_subsequence_witness :
  ((("washington"%string, "washington.csv"%string) ∈ CITY_DATA) /\
   files "washington.csv" = Some washington_csv /\
   ("Start Time" : string) ∈ header washington_csv /\
   to_datetime (cell "Start Time" <$> rows (frame_of_csv washington_csv))
     = Ok (times_of washington_csv) /\
   length (times_of washington_csv) = length (records washington_csv)) /\
  exists l w' out,
    load "washington" "january" "all" (world []) = (Ok l, w') /\
    heap w' !! l = Some out /\
    rows out `sublist_of`
      rows (derived lower_ascii washington_csv (times_of washington_csv)) /\
    StronglySorted lt (label <$> rows out) /\
    NoDup (rows out) /\
    (forall r, r ∈ rows out ->
       exists fs t,
         records washington_csv !! label r = Some fs /\
         times_of washington_csv !! label r = Some t /\
         r = derive_row lower_ascii (label r) fs t /\
         forall c : string,
           c ∉ ["month"; "day_of_week"; "hour"]%string ->
           cell c r = default NaN (fs !! c)).
Proof.
  split; [exact washington_loads|].
  destruct washington_loads as (H1 & H2 & H3 & H4 & H5).
  exact (load_data_subsequence lower_ascii to_datetime files "washington"
           "washington.csv" washington_csv (times_of washington_csv)
           "january" "all" (world []) H1 H2 H3 H4 H5).
Defined.

Lemma breakdown_of_scenario : breakdown 4000300 = (46, 7, 11, 40).
Proof. reflexivity. Qed.

Lemma stats_report_least_mode_witness :
  (heap (holding washington_table) !! 0%nat = Some washington_table /\
   first_row washington_table ∈ rows washington_table /\
   (forall c : string,
      c ∈ ["month"; "day_of_week"; "hour"; "Start Station"; "End Station"]%string ->
      c ∈ columns washington_table /\
      notna (cell c (first_row washington_table)) = true)) /\
  exists m dd h s e combo,
    printed (time_stats clock 0) (holding washington_table) =
      [Text "\nCalculating Most Frequent Times of Travel...\n";
       Value "Most common month: " m; Value "Most common day: " dd;
       Value "Most common hour: " h; Elapsed 1; Text (rule 40)] /\
    printed (station_stats clock 0) (holding washington_table) =
      [Text "\nCalculating Most Popular Stations and Trip...\n";
       Value "Most common start station:" s; Value "Most common end station:" e;
       Combo "Most common start/end combination:" combo; Elapsed 1;
       Text (rule 40)] /\
    least_mode (cell "month" <$> rows washington_table) m /\
    least_mode (cell "day_of_week" <$> rows washington_table) dd /\
    least_mode (cell "hour" <$> rows washington_table) h /\
    least_mode (cell "Start Station" <$> rows washington_table) s /\
    least_mode (cell "End Station" <$> rows washington_table) e /\
    least_combo (zip (cell "Start Station" <$> rows washington_table)
                     (cell "End Station" <$> rows washington_table)) combo.
Proof.
  assert (H1 : heap (holding washington_table) !! 0%nat = Some washington_table) by reflexivity.
  assert (H2 : first_row washington_table ∈ rows washington_table) by closed.
  assert (H3 : forall c : string,
            c ∈ ["month"; "day_of_week"; "hour"; "Start Station"; "End Station"]%string ->
            c ∈ columns washington_table /\
            notna (cell c (first_row washington_table)) = true).
  { intros c Hc. rewrite !elem_of_cons, elem_of_nil in Hc.
    destruct Hc as [->|[->|[->|[->|[->|[]]]]]]; split; closed. }
  split; [exact (conj H1 (conj H2 H3))|].
  destruct (stats_report_least_mode clock 0%nat washington_table
              (first_row washington_table) (holding washington_table) H1 H2 H3)
    as (m & dd & h & s & e & combo & Ht & Hs & L).
  exists m, dd, h, s, e, combo. split; [|split; [|exact L]].
  - rewrite (printed_emit _ _ _ _ _ Ht). reflexivity.
  - rewrite (printed_emit _ _ _ _ _ Hs). reflexivity.
Defined.

(** Against C3 as stated: both start stations occur once and "B" comes
    first in the file, yet "A" is reported; likewise hour 9 is reported
    though 17 comes first, and the pair (A, Z) though (B, Y) comes first. *)
Lemma stats_report_first_seen_counterexample :
  column "Start Station" new_york_table = Ok [Str "B"; Str "A"] /\
  column "End Station" new_york_table = Ok [Str "Y"; Str "Z"] /\
  column "hour" new_york_table = Ok [Int 17; Int 9] /\
  column "month" new_york_table = Ok [Str "march"; Str "january"] /\
  printed (station_stats clock 0) (holding new_york_table) =
    [Text "\nCalculating Most Popular Stations and Trip...\n";
     Value "Most common start station:" (Str "A");
     Value "Most common end station:" (Str "Y");
     Combo "Most common start/end combination:" (Str "A", Str "Z");
     Elapsed 1; Text (rule 40)] /\
  printed (time_stats clock 0) (holding new_york_table) =
    [Text "\nCalculating Most Frequent Times of Travel...\n";
     Value "Most common month: " (Str "january");
     Value "Most common day: " (Str "monday");
     Value "Most common hour: " (Int 9);
     Elapsed 1; Text (rule 40)].
Proof. split_and!; closed. Qed.

Lemma durations_scenario_witness :
  (heap (holding washington_raw) !! 0%nat = Some washington_raw /\
   column "Trip Duration" washington_raw = Ok [Int 100; Int 200; Int 4000000]) /\
  Int64.sum [100; 200; 4000000] = 4000300 /\
  Float64.mean [100; 200; 4000000] = S754_finite false 5727052558062933 (-32) /\
  1333433 * 2 ^ 32 < 5727052558062933 < 1333434 * 2 ^ 32 /\
  Float64.remainder (Float64.mean [100; 200; 4000000]) (Float64.of_Z 60)
    = S754_finite false 7505999378939904 (-47) /\
  53 * 2 ^ 47 < 7505999378939904 < 54 * 2 ^ 47 /\
  trip_duration_stats clock 0 (holding washington_raw) =
    (Ok tt,
     emit [Text "\nCalculating Trip Duration...\n";
           Span "Total" 46 7 11 40;
           Span "Mean" 15 10 23 53;
           Elapsed (clock (S (ticks (holding washington_raw)))
                    - clock (ticks (holding washington_raw)));
           Text (rule 40)] 2 (holding washington_raw)).
Proof.
  assert (H1 : heap (holding washington_raw) !! 0%nat = Some washington_raw) by reflexivity.
  assert (H2 : column "Trip Duration" washington_raw
               = Ok [Int 100; Int 200; Int 4000000]) by closed.
  split; [exact (conj H1 H2)|].
  exact (durations_scenario clock 0%nat washington_raw (holding washington_raw) H1 H2).
Defined.

(** Against C4 as stated: the figures printed for the three durations
    are 46d 7h 11m 40s and 15d 10h 23m 53s, not 46d 7h 31m 40s and
    15d 10h 17m 13s. *)
Lemma durations_scenario_counterexample :
  column "Trip Duration" washington_raw = Ok [Int 100; Int 200; Int 4000000] /\
  printed (trip_duration_stats clock 0) (holding washington_raw) =
    [Text "\nCalculating Trip Duration...\n";
     Span "Total" 46 7 11 40; Span "Mean" 15 10 23 53;
     Elapsed 1; Text (rule 40)] /\
  (Span "Total" 46 7 31 40
     ∉ printed (trip_duration_stats clock 0) (holding washington_raw)) /\
  (Span "Mean" 15 10 17 13
     ∉ printed (trip_duration_stats clock 0) (holding washington_raw)).
Proof. split_and!; closed. Qed.

Lemma empty_selection_stats_witness :
  ((("washington"%string, "washington.csv"%string) ∈ CITY_DATA) /\
   files "washington.csv" = Some washington_csv /\
   ("Start Time" : string) ∈ header washington_csv /\
   to_datetime (cell "Start Time" <$> rows washington_raw)
     = Ok (times_of washington_csv) /\
   length (times_of washington_csv) = length (records washington_csv) /\
   (forall r, r ∈ rows washington_table ->
      ~ (passes "month" "june" r /\ passes "day_of_week" "all" r))) /\
  exists l w' out,
    load "washington" "june" "all" (world []) = (Ok l, w') /\
    heap w' !! l = Some out /\
    length (rows out) = 0%nat /\
    time_stats clock l w' =
      (Raise KeyError,
       emit [Text "\nCalculating Most Frequent Times of Travel...\n"] 1 w') /\
    station_stats clock l w' =
      (Raise KeyError,
       emit [Text "\nCalculating Most Popular Stations and Trip...\n"] 1 w') /\
    user_stats clock l w' =
      (Ok tt,
       emit [Text "\nCalculating User Stats...\n";
             Table "User types:" []; Text (rule 40);
             Text "Gender data not available";
             Text "Birth year data not available"; Text (rule 40);
             Elapsed (clock (S (ticks w')) - clock (ticks w'));
             Text (rule 40)] 2 w').
Proof.
  destruct washington_loads as (H1 & H2 & H3 & H4 & H5).
  assert (H6 : forall r, r ∈ rows washington_table ->
            ~ (passes "month" "june" r /\ passes "day_of_week" "all" r)).
  { apply Forall_forall. closed. }
  split; [exact (conj H1 (conj H2 (conj H3 (conj H4 (conj H5 H6)))))|].
  destruct (empty_selection_stats lower_ascii to_datetime files clock "washington"
              "washington.csv" washington_csv (times_of washington_csv)
              "june" "all" (world []) H1 H2 H3 H4 H5 H6)
    as (l & w' & out & Hl & Ho & Hr & Ht & Hs & Hu).
  exists l, w', out. split_and!; try assumption.
  assert (Hut : ("User Type" : string) ∈ header washington_csv) by closed.
  specialize (Hu Hut). cbv zeta in Hu.
  rewrite (decide_False (P := ("Birth Year" : string) ∈ header washington_csv)) in Hu
    by closed.
  rewrite (decide_False (P := ("Gender" : string) ∈ header washington_csv)) in Hu
    by closed.
  exact Hu.
Defined.

(** Against C5 as stated: on the empty selection of a file without a
    Birth Year column [user_stats] returns normally and prints. *)
Lemma empty_selection_user_stats_counterexample :
  exists l w',
    load "washington" "june" "all" (world []) = (Ok l, w') /\
    (rows <$> heap w' !! l) = Some [] /\
    (user_stats clock l w').1 = Ok tt /\
    printed (user_stats clock l) w' =
      [Text "\nCalculating User Stats...\n";
       Table "User types:" []; Text (rule 40);
       Text "Gender data not available";
       Text "Birth year data not available"; Text (rule 40);
       Elapsed 1; Text (rule 40)].
Proof.
  eexists _, _. split; [vm_compute; reflexivity|].
  split_and!; closed.
Qed.

Lemma user_stats_gender_witness :
  (heap (holding washington_table) !! 0%nat = Some washington_table /\
   column "User Type" washington_table = Ok washington_user_types) /\
  (("Gender" : string) ∉ columns washington_table) /\
  (exists post,
     printed (user_stats clock 0) (holding washington_table) =
       [Text "\nCalculating User Stats...\n";
        Table "User types:" (value_counts washington_user_types); Text (rule 40);
        Text "Gender data not available"] ++ post) /\
  (user_stats clock 0 (holding washington_table)).1 = Ok tt.
Proof.
  assert (H1 : heap (holding washington_table) !! 0%nat = Some washington_table) by reflexivity.
  assert (H2 : column "User Type" washington_table = Ok washington_user_types) by closed.
  assert (Hg : ("Gender" : string) ∉ columns washington_table) by closed.
  assert (Hb : ("Birth Year" : string) ∉ columns washington_table) by closed.
  split; [exact (conj H1 H2)|]. split; [exact Hg|].
  destruct (user_stats_gender clock 0%nat washington_table washington_user_types
              (holding washington_table) H1 H2) as [Habsent _].
  destruct (Habsent Hg) as [Hp Hok].
  split; [exact Hp|]. apply Hok. by left.
Defined.

(** Against C6 as stated: a table without a Gender column whose Birth
    Year column holds no year; "Gender data not available" is printed and
    then [user_stats] raises. *)
Lemma user_stats_gender_counterexample :
  (("Gender" : string) ∉ columns birth_only_table) /\
  column "User Type" birth_only_table = Ok [Str "Customer"] /\
  column "Birth Year" birth_only_table = Ok [NaN] /\
  printed (user_stats clock 0) (holding birth_only_table) =
    [Text "\nCalculating User Stats...\n";
     Table "User types:" [(Str "Customer", 1%nat)]; Text (rule 40);
     Text "Gender data not available"] /\
  (user_stats clock 0 (holding birth_only_table)).1 = Raise ValueError.
Proof. split_and!; closed. Qed.

Lemma get_filters_vocabulary_witness :
  (stdin (world ["Chicago"; "july"; "June"; "sun"; "ALL"; "x"]) =
     [] ++ "Chicago" :: ["july"] ++ "June" :: ["sun"] ++ "ALL" :: ["x"] /\
   lower_ascii "Chicago" ∈ ["chicago"; "new york city"; "washington"]%string /\
   Forall (fun x => lower_ascii x ∉
     ["all"; "january"; "february"; "march"; "april"; "may"; "june"]%string) ["july"] /\
   lower_ascii "June" ∈
     ["all"; "january"; "february"; "march"; "april"; "may"; "june"]%string /\
   Forall (fun x => lower_ascii x ∉
     ["all"; "monday"; "tuesday"; "wednesday"; "thursday"; "friday";
      "saturday"; "sunday"]%string) ["sun"] /\
   lower_ascii "ALL" ∈
     ["all"; "monday"; "tuesday"; "wednesday"; "thursday"; "friday";
      "saturday"; "sunday"]%string) /\
  get_filters lower_ascii (world ["Chicago"; "july"; "June"; "sun"; "ALL"; "x"]) =
    (Ok ("chicago", "june", "all"),
     {| heap := []; stdin := ["x"];
        stdout :=
          [Text "Hello! Let's explore some US bikeshare data!";
           Prompt "Enter city name (chicago, new york city, washington): ";
           Prompt "Enter month name (all, january, february, ... , june): ";
           Prompt "Invalid month: type one of (all, january, february, ... , june)";
           Prompt "Enter day of week (all, monday, tuesday, ... , sunday): ";
           Prompt "Invalid day: type one of (all, monday, tuesday, ... , sunday)";
           Text (rule 40)];
        ticks := 0 |}).
Proof.
  assert (H0 : stdin (world ["Chicago"; "july"; "June"; "sun"; "ALL"; "x"]) =
     [] ++ "Chicago" :: ["july"] ++ "June" :: ["sun"] ++ "ALL" :: ["x"]) by reflexivity.
  assert (H1 : Forall (fun x => lower_ascii x ∉
            ["chicago"; "new york city"; "washington"]%string) []) by constructor.
  assert (H2 : lower_ascii "Chicago" ∈ ["chicago"; "new york city"; "washington"]%string)
    by closed.
  assert (H3 : Forall (fun x => lower_ascii x ∉
     ["all"; "january"; "february"; "march"; "april"; "may"; "june"]%string) ["july"])
    by closed.
  assert (H4 : lower_ascii "June" ∈
     ["all"; "january"; "february"; "march"; "april"; "may"; "june"]%string) by closed.
  assert (H5 : Forall (fun x => lower_ascii x ∉
     ["all"; "monday"; "tuesday"; "wednesday"; "thursday"; "friday";
      "saturday"; "sunday"]%string) ["sun"]) by closed.
  assert (H6 : lower_ascii "ALL" ∈
     ["all"; "monday"; "tuesday"; "wednesday"; "thursday"; "friday";
      "saturday"; "sunday"]%string) by closed.
  split; [exact (conj H0 (conj H2 (conj H3 (conj H4 (conj H5 H6)))))|].
  exact (proj2 (get_filters_vocabulary lower_ascii)
           [] "Chicago" ["july"] "June" ["sun"] "ALL" ["x"]
           (world ["Chicago"; "july"; "June"; "sun"; "ALL"; "x"])
           H0 H1 H2 H3 H4 H5 H6).
Defined.

(** Against C7 as stated: "july", one of the twelve lower-case month
    names, is answered by the re-prompt; the month returned is the next
    line, "june". *)
Lemma get_filters_july_counterexample :
  (get_filters lower_ascii (world ["chicago"; "july"; "june"; "all"])).1
    = Ok ("chicago"%string, "june"%string, "all"%string) /\
  stdout (get_filters lower_ascii (world ["chicago"; "july"; "june"; "all"])).2 =
    [Text "Hello! Let's explore some US bikeshare data!";
     Prompt "Enter city name (chicago, new york city, washington): ";
     Prompt "Enter month name (all, january, february, ... , june): ";
     Prompt "Invalid month: type one of (all, january, february, ... , june)";
     Prompt "Enter day of week (all, monday, tuesday, ... , sunday): ";
     Text (rule 40)] /\
  ("july"%string ∉ months).
Proof. split_and!; closed. Qed.

(** Against C8 as stated: with clock readings 0, 1, 4, 9 the first run of
    [time_stats] prints an elapsed time of 1 and the second, on the same
    table, of 5. *)
Lemma stats_repeatable_counterexample :
  printed (time_stats drifting_clock 0) (holding washington_table) =
    [Text "\nCalculating Most Frequent Times of Travel...\n";
     Value "Most common month: " (Str "january");
     Value "Most common day: " (Str "monday");
     Value "Most common hour: " (Int 9);
     Elapsed 1; Text (rule 40)] /\
  printed (time_stats drifting_clock 0)
    (time_stats drifting_clock 0 (holding washington_table)).2 =
    [Text "\nCalculating Most Frequent Times of Travel...\n";
     Value "Most common month: " (Str "january");
     Value "Most common day: " (Str "monday");
     Value "Most common hour: " (Int 9);
     Elapsed 5; Text (rule 40)] /\
  heap (time_stats drifting_clock 0 (holding washington_table)).2
    = heap (holding washington_table) /\
  printed (time_stats drifting_clock 0)
    (time_stats drifting_clock 0 (holding washington_table)).2
    ≠ printed (time_stats drifting_clock 0) (holding washington_table).
Proof. split_and!; closed. Qed.

(** * Further properties *)

(** ** Calendar fields *)

Lemma all_from_spec n z p k :
  all_from n z p = true -> z <= k < z + Z.of_nat n -> p k = true.
Proof.
  revert z. induction n as [|n IH]; intros z H Hk; [lia|].
  cbn [all_from] in H. apply andb_prop in H as [H1 H2].
  destruct (decide (k = z)) as [->|Hne]; [done|].
  apply (IH (z + 1)); [done|lia].
Qed.


Lemma month_by_era_day ns :
  Calendar.month ns = month_of_era_day ((Calendar.days ns + 719468) mod 146097).
Proof.
  unfold Calendar.month, month_of_era_day.
  replace (Calendar.days ns + 719468 - (Calendar.days ns + 719468) / 146097 * 146097)
    with ((Calendar.days ns + 719468) mod 146097); [done|].
  rewrite Z.mod_eq by lia. lia.
Qed.

Lemma month_range_check :
  all_from 146097 0 (fun doe =>
    (1 <=? month_of_era_day doe) && (month_of_era_day doe <=? 12)) = true.
Proof. vm_compute. reflexivity. Qed.

Lemma month_range ns : 1 <= Calendar.month ns <= 12.
Proof.
  rewrite month_by_era_day.
  pose proof (Z.mod_pos_bound (Calendar.days ns + 719468) 146097 ltac:(lia)) as Hb.
  pose proof (all_from_spec _ _ _ _ month_range_check (conj (proj1 Hb) (proj2 Hb))) as H.
  cbv beta in H. apply andb_prop in H as [H1 H2].
  apply Z.leb_le in H1, H2. lia.
Qed.

Lemma month_name_listed ns : Calendar.month_name ns ∈ Calendar.month_names.
Proof.
  unfold Calendar.month_name. pose proof (month_range ns) as H.
  apply list_elem_of_In, nth_In. cbn [length Calendar.month_names]. lia.
Qed.

Lemma day_name_listed ns : Calendar.day_name ns ∈ Calendar.day_names.
Proof.
  unfold Calendar.day_name, Calendar.weekday.
  pose proof (Z.mod_pos_bound (Calendar.days ns + 3) 7 ltac:(lia)) as H.
  apply list_elem_of_In, nth_In. cbn [length Calendar.day_names]. lia.
Qed.

(** X1. The derived columns hold only what the calendar allows: an hour
    cell is missing or an integer from 0 to 23, a month cell is missing or
    the lower-cased form of one of the twelve month names, a weekday cell
    is missing or the lower-cased form of one of the seven day names. *)
Theorem derived_values_in_range (lower : string -> string) (ts : list (option Z)) :
  (forall c, c ∈ dt_hour ts -> c = NaN \/ exists h, c = Int h /\ 0 <= h <= 23) /\
  (forall c, c ∈ dt_month_name_lower lower ts ->
     c = NaN \/ exists m, m ∈ Calendar.month_names /\ c = Str (lower m)) /\
  (forall c, c ∈ dt_day_name_lower lower ts ->
     c = NaN \/ exists d, d ∈ Calendar.day_names /\ c = Str (lower d)).
Proof.
  split_and!; intros c Hc; apply list_elem_of_fmap in Hc as ([ns|] & -> & _);
    try (by left); right.
  - exists (Calendar.hour ns). split; [done|]. unfold Calendar.hour.
    pose proof (Z.mod_pos_bound (ns / Calendar.ns_per_hour) 24 ltac:(lia)). lia.
  - exists (Calendar.month_name ns). split; [apply month_name_listed|done].
  - exists (Calendar.day_name ns). split; [apply day_name_listed|done].
Qed.

(** ** Loading: selectors that match nothing, and failures *)

Lemma cell_derive_row lower i fs t :
  cell "month" (derive_row lower i fs t) = month_cell lower t /\
  cell "day_of_week" (derive_row lower i fs t) = day_cell lower t /\
  cell "hour" (derive_row lower i fs t) = hour_cell t.
Proof.
  unfold cell, derive_row. cbn [fields]. split_and!.
  - rewrite lookup_insert_ne by done. rewrite lookup_insert_ne by done.
    by rewrite lookup_insert_eq.
  - rewrite lookup_insert_ne by done. by rewrite lookup_insert_eq.
  - by rewrite lookup_insert_eq.
Qed.

(** X2. A selector that is neither "all" nor the lower-cased form of a
    month name (of a day name, for the day selector) selects nothing:
    [load_data] returns a table without rows, and raises nothing. *)
Theorem load_data_unknown_selector
    lower to_datetime files city path f ts month day w :
  (city, path) ∈ CITY_DATA ->
  files path = Some f ->
  ("Start Time" : string) ∈ header f ->
  to_datetime (cell "Start Time" <$> rows (frame_of_csv f)) = Ok ts ->
  length ts = length (records f) ->
  (month ≠ "all"%string /\ forall m, m ∈ Calendar.month_names -> lower m ≠ month) \/
  (day ≠ "all"%string /\ forall d, d ∈ Calendar.day_names -> lower d ≠ day) ->
  exists l w' out,
    load_data lower to_datetime files city month day w = (Ok l, w') /\
    heap w' !! l = Some out /\
    rows out = [].
Proof.
  intros Hc Hf Hs Ht Hl Hsel.
  destruct (load_data_run lower to_datetime files city path f ts month day w
              Hc Hf Hs Ht Hl) as (l & w' & Hrun & _ & Hout & _).
  eexists l, w', _. split; [done|]. split; [done|]. cbn [rows].
  apply filter_filter_nil. intros r Hr [Hm Hd].
  destruct (derived_row_inv lower f ts r Hr) as (fs & t & _ & _ & Er).
  destruct (cell_derive_row lower (label r) fs t) as (Cm & Cd & _).
  rewrite <- Er in Cm, Cd.
  destruct Hsel as [[Hne Hno]|[Hne Hno]].
  - specialize (Hm Hne). rewrite Cm in Hm. destruct t as [ns|]; [|done].
    injection Hm as Hm. by apply (Hno _ (month_name_listed ns)).
  - specialize (Hd Hne). rewrite Cd in Hd. destruct t as [ns|]; [|done].
    injection Hd as Hd. by apply (Hno _ (day_name_listed ns)).
Qed.

(** X3. For a city that is not a key of [CITY_DATA], [load_data] raises
    [KeyError]; for a key whose file cannot be opened it raises
    [FileNotFoundError].  Either way nothing has been read, printed or
    stored. *)
Theorem load_data_nothing_read lower to_datetime files city month day w :
  (city ∉ ["chicago"; "new york city"; "washington"]%string ->
   load_data lower to_datetime files city month day w = (Raise KeyError, w)) /\
  (forall path, (city, path) ∈ CITY_DATA -> files path = None ->
   load_data lower to_datetime files city month day w = (Raise FileNotFoundError, w)).
Proof.
  split.
  - intros Hn. rewrite !elem_of_cons, elem_of_nil in Hn.
    unfold load_data, read_and_derive, city_file, CITY_DATA.
    cbn [list_find fst]. repeat (rewrite decide_False by (intros <-; tauto)).
    done.
  - intros path Hc Hf.
    assert (Hp : city_file city = ret path).
    { unfold CITY_DATA in Hc. rewrite !elem_of_cons in Hc.
      destruct Hc as [[= -> ->]|[[= -> ->]|[[= -> ->]|Hc]]]; [done..|].
      by apply elem_of_nil in Hc. }
    unfold load_data. apply bind_Raise.
    unfold read_and_derive. rewrite Hp, bind_ret. apply bind_Raise.
    unfold read_csv. by rewrite Hf.
Qed.

(** X4. When the file has no Start Time column [load_data] raises
    [KeyError], and when [pd.to_datetime] raises on that column the same
    exception comes out of [load_data].  No table is returned; the table
    as read, without derived columns, is what was added to the store. *)
Theorem load_data_start_time_failure
    lower to_datetime files city path f month day w :
  (city, path) ∈ CITY_DATA ->
  files path = Some f ->
  let w' := {| heap := heap w ++ [frame_of_csv f]; stdin := stdin w;
               stdout := stdout w; ticks := ticks w |} in
  (("Start Time" : string) ∉ header f ->
   load_data lower to_datetime files city month day w = (Raise KeyError, w')) /\
  (forall e, ("Start Time" : string) ∈ header f ->
   to_datetime (cell "Start Time" <$> rows (frame_of_csv f)) = Raise e ->
   load_data lower to_datetime files city month day w = (Raise e, w')).
Proof.
  intros Hc Hf w'.
  assert (Hp : city_file city = ret path).
  { unfold CITY_DATA in Hc. rewrite !elem_of_cons in Hc.
    destruct Hc as [[= -> ->]|[[= -> ->]|[[= -> ->]|Hc]]]; [done..|].
    by apply elem_of_nil in Hc. }
  assert (Hread : read_csv files path w = (Ok (length (heap w)), w')).
  { unfold read_csv. by rewrite Hf. }
  split.
  - intros Hs. unfold load_data. apply bind_Raise.
    unfold read_and_derive. rewrite Hp, bind_ret.
    erewrite bind_Ok by exact Hread.
    apply bind_Raise.
    rewrite (getcol_run _ _ (frame_of_csv f)) by apply lookup_snoc.
    unfold column. by rewrite decide_False.
  - intros e Hs He. unfold load_data. apply bind_Raise.
    unfold read_and_derive. rewrite Hp, bind_ret.
    erewrite bind_Ok by exact Hread.
    erewrite bind_Ok; cycle 1.
    { rewrite (getcol_run _ _ (frame_of_csv f)) by apply lookup_snoc.
      unfold column. by rewrite decide_True. }
    rewrite He. by apply bind_Raise.
Qed.

(** ** The statistics: totals, failures, tables *)

Lemma wrap_in_range z : - 2 ^ 63 <= z < 2 ^ 63 -> Int64.wrap z = z.
Proof. intros H. unfold Int64.wrap. rewrite Z.mod_small; lia. Qed.

Lemma wrap_add_wrap a x : Int64.wrap (Int64.wrap a + x) = Int64.wrap (a + x).
Proof.
  unfold Int64.wrap.
  replace ((a + 2 ^ 63) mod 2 ^ 64 - 2 ^ 63 + x + 2 ^ 63)
    with ((a + 2 ^ 63) mod 2 ^ 64 + x) by lia.
  replace (a + x + 2 ^ 63) with ((a + 2 ^ 63) + x) by lia.
  by rewrite Zplus_mod_idemp_l.
Qed.

Lemma int64_sum_wrap xs : Int64.sum xs = Int64.wrap (foldr Z.add 0 xs).
Proof.
  unfold Int64.sum.
  assert (H : forall a, fold_left (fun acc x => Int64.wrap (acc + x)) xs (Int64.wrap a)
                        = Int64.wrap (a + foldr Z.add 0 xs)).
  { induction xs as [|x xs IH]; intros a; cbn [fold_left foldr].
    - by rewrite Z.add_0_r.
    - rewrite wrap_add_wrap, IH. f_equal. lia. }
  specialize (H 0). rewrite (wrap_in_range 0) in H by lia. by rewrite H.
Qed.

Lemma agree_emits {A} (R : A -> A -> Prop) (m : M A) w :
  agree R m m -> exists r o n, m w = (r, emit o n w).
Proof.
  intros H. destruct (H w w eq_refl) as (r & _ & o & _ & n & _ & E & _). eauto.
Qed.

Lemma printed_bind {A B} (m : M A) (k : A -> M B) a o n w :
  m w = (Ok a, emit o n w) ->
  (exists r o' n', k a (emit o n w) = (r, emit o' n' (emit o n w))) ->
  printed (bind m k) w = o ++ printed (k a) (emit o n w).
Proof.
  intros Hm (r & o' & n' & Hk).
  rewrite (printed_emit _ _ _ _ _ Hk).
  eapply printed_emit. erewrite bind_Ok by exact Hm.
  rewrite Hk, emit_emit. reflexivity.
Qed.

Lemma printed_bind_silent {A B} (m : M A) (k : A -> M B) a w :
  m w = (Ok a, w) -> printed (bind m k) w = printed (k a) w.
Proof. intros Hm. unfold printed. by erewrite bind_Ok by exact Hm. Qed.
